(** * rvg::Text — geometry cache, device buffers and queries

    A shallow embedding of [src/rvg/text.cpp]: the text object's state,
    the geometry rebuild [Text::update], the device sync
    [Text::updateDevice], the setters [Text::disable] and
    [Text::deviceLocal], and the queries [Text::charAt] and
    [Text::ithBounds]. *)

From Stdlib Require Import ZArith Lia Floats.SpecFloat.
From stdpp Require Import base list.

Local Open Scope Z_scope.

(** ** Scalars

    Coordinates are C++ [float]s.  The operations the file uses on them
    are addition, subtraction and the comparison [<]; the model is written
    over these three operations and instantiated with IEEE binary32, what
    the program computes with. *)

Class Scalar (F : Type) := {
  fadd : F -> F -> F;
  fsub : F -> F -> F;
  fltb : F -> F -> bool
}.

Infix "⊕" := fadd (at level 50, left associativity).
Infix "⊖" := fsub (at level 50, left associativity).

(** IEEE-754 binary32: 24 bits of precision, [emax = 128]. *)
Definition binary32 : Type := spec_float.

Definition b32_of_Z (z : Z) : binary32 := binary_normalize 24 128 z 0 false.

#[export] Instance binary32_scalar : Scalar binary32 := {|
  fadd := SFadd 24 128;
  fsub := SFsub 24 128;
  fltb := SFltb
|}.

(** ** Machine integers

    [unsigned] is 32 bits wide, [size_t] and [vk::DeviceSize] 64 bits. *)

Definition wrap32 (z : Z) : Z := z mod 2 ^ 32.
Definition wrap64 (z : Z) : Z := z mod 2 ^ 64.

(** [sizeof(Vec2f)]: two floats; [sizeof(vk::DrawIndirectCommand)]: four
    32-bit words. *)
Definition sizeof_Vec2f : Z := 8.
Definition sizeof_DrawIndirectCommand : Z := 16.

(** [vk::BufferUsageBits]. *)
Definition vertexBuffer : Z := 128.
Definition transferDst : Z := 2.

(** ** Data *)

Module Vec2.
Record t (F : Type) := mk { x : F; y : F }.
Arguments mk {F}.
Arguments x {F}.
Arguments y {F}.
End Vec2.
Abbreviation Vec2f := Vec2.t.

(** [operator-] on vectors, component by component. *)
Definition vsub {F} `{Scalar F} (a b : Vec2f F) : Vec2f F :=
  Vec2.mk (Vec2.x a ⊖ Vec2.x b) (Vec2.y a ⊖ Vec2.y b).

Module Rect2.
Record t (F : Type) := mk { position : Vec2f F; size : Vec2f F }.
Arguments mk {F}.
Arguments position {F}.
Arguments size {F}.
End Rect2.
Abbreviation Rect2f := Rect2.t.

(** The fields of [nk_font_glyph] that the file reads. *)
Record nk_font_glyph (F : Type) := {
  xadvance : F;
  x0 : F; y0 : F; x1 : F; y1 : F;
  u0 : F; v0 : F; u1 : F; v1 : F
}.
Arguments xadvance {F}.
Arguments x0 {F}.
Arguments y0 {F}.
Arguments x1 {F}.
Arguments y1 {F}.
Arguments u0 {F}.
Arguments v0 {F}.
Arguments u1 {F}.
Arguments v1 {F}.

(** [nk_font]: the glyph table behind [nk_font_find_glyph], which returns a
    pointer that may be null. *)
Record nk_font (F : Type) := {
  glyphs : Z -> option (nk_font_glyph F)
}.
Arguments glyphs {F}.

Definition nk_font_find_glyph {F} (f : nk_font F) (c : Z)
  : option (nk_font_glyph F) := glyphs f c.

(** [rvg::Font] as the text object uses it: the identity of its atlas,
    [ensureRange], [glyph] and [nkFont]. *)
Record Font (F : Type) := {
  atlas : nat;
  ensureRange : list Z -> bool;
  glyph : Z -> nk_font_glyph F;
  nkFont : nk_font F
}.
Arguments atlas {F}.
Arguments ensureRange {F}.
Arguments glyph {F}.
Arguments nkFont {F}.

(** [vk::DrawIndirectCommand]. *)
Record DrawIndirectCommand := {
  vertexCount : Z;
  instanceCount : Z;
  firstVertex : Z;
  firstInstance : Z
}.

(** What [vpp::raw] hands to an upload: the draw command or a span of
    vertices. *)
Inductive Raw (F : Type) :=
| RawCmd (cmd : DrawIndirectCommand)
| RawSpan (data : list (Vec2f F)).
Arguments RawCmd {F}.
Arguments RawSpan {F}.

(** [vpp::SubBuffer]: its size in bytes (0 when default-constructed), its
    usage flags, the type of the memory it lives in and the data last
    uploaded. *)
Record SubBuffer (F : Type) := {
  buf_size : Z;
  buf_usage : Z;
  buf_memType : Z;
  buf_data : list (Raw F)
}.
Arguments buf_size {F}.
Arguments buf_usage {F}.
Arguments buf_memType {F}.
Arguments buf_data {F}.

Definition SubBuffer_empty {F} : SubBuffer F :=
  {| buf_size := 0; buf_usage := 0; buf_memType := 0; buf_data := [] |}.

(** The device: its two memory-type masks and the memory type the buffer
    allocator picks for a request with given type bits. *)
Record Device := {
  deviceMemoryTypes : Z;
  hostMemoryTypes : Z;
  memoryTypeFor : Z -> Z
}.

(** Calls made on the context, the allocator and the atlases, in order. *)
Inductive Event :=
| Rerecord
| RegisterUpdateDevice
| AtlasRemoved (a : nat)
| AtlasAdded (a : nat)
| Allocate (size usage align memBits : Z).

Record Context := {
  device : Device;
  calls : list Event
}.

Definition call (e : Event) (ctx : Context) : Context :=
  {| device := device ctx; calls := calls ctx ++ [e] |}.

(** [Text::State]. *)
Record State (F : Type) := {
  utf32 : list Z;
  font : Font F;
  position : Vec2f F
}.
Arguments utf32 {F}.
Arguments font {F}.
Arguments position {F}.

(** [rvg::Text], with the context it was created in. *)
Record Text (F : Type) := {
  context : Context;
  state_ : State F;
  deviceLocal_ : bool;
  disable_ : bool;
  posCache_ : list (Vec2f F);
  uvCache_ : list (Vec2f F);
  posBuf_ : SubBuffer F;
  uvBuf_ : SubBuffer F;
  oldAtlas_ : nat
}.
Arguments context {F}.
Arguments state_ {F}.
Arguments deviceLocal_ {F}.
Arguments disable_ {F}.
Arguments posCache_ {F}.
Arguments uvCache_ {F}.
Arguments posBuf_ {F}.
Arguments uvBuf_ {F}.
Arguments oldAtlas_ {F}.

(** What a call can do besides returning: throw [std::out_of_range], run
    into undefined behaviour (a read past the end of a vector, a null
    glyph dereferenced), or still be looping when the fuel is spent. *)
Inductive outcome (A : Type) :=
| Ret (a : A)
| ThrowOutOfRange
| Undefined
| OutOfFuel.
Arguments Ret {A}.
Arguments ThrowOutOfRange {A}.
Arguments Undefined {A}.
Arguments OutOfFuel {A}.

(** [v.size()] and [v[i]]. *)
Definition vsize {A} (v : list A) : Z := Z.of_nat (length v).
Definition vat {A} (v : list A) (i : Z) : option A := v !! Z.to_nat i.

(** [vertIndex0], "vertex index on the left", and [vertIndex2], "vertex
    index on the right". *)
Definition vertIndex0 : Z := 2.
Definition vertIndex2 : Z := 3.

(** ** Geometry rebuild *)

Section Geometry.
Context {F : Type} `{Scalar F}.

(** The lambda [addVert] of [Text::update]; it captures the caches, the
    cursor [x] and [position]. *)
Definition addVert (position : Vec2f F) (x : F) (glyph : nk_font_glyph F)
    (caches : list (Vec2f F) * list (Vec2f F)) (i : Z)
  : list (Vec2f F) * list (Vec2f F) :=
  let left := (i =? 0) || (i =? 3) in
  let top := (i =? 0) || (i =? 1) in
  (caches.1 ++ [Vec2.mk
     (x ⊕ (if left then x0 glyph else x1 glyph))
     (Vec2.y position ⊕ (if top then y0 glyph else y1 glyph))],
   caches.2 ++ [Vec2.mk
     (if left then u0 glyph else u1 glyph)
     (if top then v0 glyph else v1 glyph)]).

(** One round of [for(auto c : text)]: the six [addVert] calls, then
    [x += glyph.xadvance]. *)
Definition update_char (fnt : Font F) (position : Vec2f F)
    (st : F * (list (Vec2f F) * list (Vec2f F))) (c : Z)
  : F * (list (Vec2f F) * list (Vec2f F)) :=
  let g := glyph fnt c in
  (st.1 ⊕ xadvance g,
   fold_left (addVert position st.1 g) [1; 1; 0; 2; 3; 3] st.2).

(** The first block of [Text::update]: the font moved to another atlas. *)
Definition rebind (t : Text F) : Text F :=
  let a := atlas (font (state_ t)) in
  if Nat.eqb a (oldAtlas_ t) then t
  else
    {| context := call (AtlasAdded a)
                    (call (AtlasRemoved (oldAtlas_ t))
                       (call Rerecord (context t)));
       state_ := state_ t;
       deviceLocal_ := deviceLocal_ t;
       disable_ := disable_ t;
       posCache_ := posCache_ t;
       uvCache_ := uvCache_ t;
       posBuf_ := posBuf_ t;
       uvBuf_ := uvBuf_ t;
       oldAtlas_ := a |}.

(** [font->atlas().ensureBaked()] bakes the atlas, which calls back into
    the texts registered with it; [ensureBaked] is what that does to this
    text. *)
Variable ensureBaked : Text F -> Text F.

(** [Text::update]. *)
Definition update (t : Text F) : Text F :=
  let t1 := rebind t in
  let fnt := font (state_ t1) in
  let text := utf32 (state_ t1) in
  let position := position (state_ t1) in
  if ensureRange fnt text then ensureBaked t1
  else
    let st := fold_left (update_char fnt position) text
                (Vec2.x position, ([], [])) in
    {| context := call RegisterUpdateDevice (context t1);
       state_ := state_ t1;
       deviceLocal_ := deviceLocal_ t1;
       disable_ := disable_ t1;
       posCache_ := st.2.1;
       uvCache_ := st.2.2;
       posBuf_ := posBuf_ t1;
       uvBuf_ := uvBuf_ t1;
       oldAtlas_ := oldAtlas_ t1 |}.

End Geometry.

(** ** Device sync *)

Section DeviceSync.
Context {F : Type} `{Scalar F}.

(** Construction of a [vpp::SubBuffer] of [size] bytes: the allocator is
    called and the buffer lands in the memory type it picks. *)
Definition SubBuffer_new (ctx : Context) (size usage align memBits : Z)
  : Context * SubBuffer F :=
  (call (Allocate size usage align memBits) ctx,
   {| buf_size := size;
      buf_usage := usage;
      buf_memType := memoryTypeFor (device ctx) memBits;
      buf_data := [] |}).

(** Modelled from the spec: [upload140] of rvg/util.hpp, which is not
    among the sources; it writes the given raw blocks, in order, to the
    start of the buffer. *)
Definition upload140 (buf : SubBuffer F) (data : list (Raw F)) : SubBuffer F :=
  {| buf_size := buf_size buf;
     buf_usage := buf_usage buf;
     buf_memType := buf_memType buf;
     buf_data := data |}.

(** The lambda [checkResize] of [Text::updateDevice]; it captures
    [rerecord], [deviceLocal_] and the context. *)
Definition checkResize (deviceLocal : bool) (st : Context * bool)
    (buf : SubBuffer F) (needed : Z) : Context * bool * SubBuffer F :=
  if (buf_size buf =? 0) || (buf_size buf <? needed) then
    let needed := Z.max (wrap64 (2 * needed)) 32 in
    let usage := vertexBuffer in
    let usage := if deviceLocal then Z.lor usage transferDst else usage in
    let memBits := if deviceLocal
                   then deviceMemoryTypes (device st.1)
                   else hostMemoryTypes (device st.1) in
    let r := SubBuffer_new st.1 needed usage 4 memBits in
    (r.1, true, r.2)
  else (st.1, st.2, buf).

(** [Text::updateDevice]; the second component is the returned
    [rerecord]. *)
Definition updateDevice (t : Text F) : Text F * bool :=
  let posCacheSize := wrap64 (sizeof_Vec2f * vsize (posCache_ t)) in
  let rp := checkResize (deviceLocal_ t) (context t, false) (posBuf_ t)
              (wrap64 (sizeof_DrawIndirectCommand + posCacheSize)) in
  let ru := checkResize (deviceLocal_ t) rp.1 (uvBuf_ t)
              (wrap64 (sizeof_Vec2f * vsize (uvCache_ t))) in
  let cmd := {| vertexCount :=
                  wrap32 (wrap64 ((if disable_ t then 0 else 1)
                                  * vsize (posCache_ t)));
                instanceCount := 1;
                firstVertex := 0;
                firstInstance := 0 |} in
  let pb := upload140 rp.2 [RawCmd cmd; RawSpan (posCache_ t)] in
  let ub := if bool_decide (uvCache_ t = [])
            then upload140 ru.2 [RawCmd cmd]
            else upload140 ru.2 [RawSpan (uvCache_ t)] in
  ({| context := ru.1.1;
      state_ := state_ t;
      deviceLocal_ := deviceLocal_ t;
      disable_ := disable_ t;
      posCache_ := posCache_ t;
      uvCache_ := uvCache_ t;
      posBuf_ := pb;
      uvBuf_ := ub;
      oldAtlas_ := oldAtlas_ t |},
   ru.1.2).

(** [Text::disable]; the second component is the returned old flag. *)
Definition disable (t : Text F) (disable : bool) : Text F * bool :=
  ({| context := call RegisterUpdateDevice (context t);
      state_ := state_ t;
      deviceLocal_ := deviceLocal_ t;
      disable_ := disable;
      posCache_ := posCache_ t;
      uvCache_ := uvCache_ t;
      posBuf_ := posBuf_ t;
      uvBuf_ := uvBuf_ t;
      oldAtlas_ := oldAtlas_ t |},
   disable_ t).

(** Assignments to single members. *)
Definition with_deviceLocal (t : Text F) (b : bool) : Text F :=
  {| context := context t;
     state_ := state_ t;
     deviceLocal_ := b;
     disable_ := disable_ t;
     posCache_ := posCache_ t;
     uvCache_ := uvCache_ t;
     posBuf_ := posBuf_ t;
     uvBuf_ := uvBuf_ t;
     oldAtlas_ := oldAtlas_ t |}.

Definition with_bufs (t : Text F) (pb ub : SubBuffer F) : Text F :=
  {| context := context t;
     state_ := state_ t;
     deviceLocal_ := deviceLocal_ t;
     disable_ := disable_ t;
     posCache_ := posCache_ t;
     uvCache_ := uvCache_ t;
     posBuf_ := pb;
     uvBuf_ := ub;
     oldAtlas_ := oldAtlas_ t |}.

Definition with_context (t : Text F) (ctx : Context) : Text F :=
  {| context := ctx;
     state_ := state_ t;
     deviceLocal_ := deviceLocal_ t;
     disable_ := disable_ t;
     posCache_ := posCache_ t;
     uvCache_ := uvCache_ t;
     posBuf_ := posBuf_ t;
     uvBuf_ := uvBuf_ t;
     oldAtlas_ := oldAtlas_ t |}.

(** [Text::deviceLocal]. *)
Definition deviceLocal (t : Text F) (set : bool) : Text F :=
  if negb (Bool.eqb (deviceLocal_ t) set) then
    let t := with_deviceLocal t set in
    if negb (buf_size (posBuf_ t) =? 0) then
      let needed := if deviceLocal_ t
                    then deviceMemoryTypes (device (context t))
                    else hostMemoryTypes (device (context t)) in
      let ptype := buf_memType (posBuf_ t) in
      let uvtype := buf_memType (uvBuf_ t) in
      let dropP := Z.land needed ptype =? 0 in
      let dropU := Z.land needed uvtype =? 0 in
      let t := with_bufs t
                 (if dropP then SubBuffer_empty else posBuf_ t)
                 (if dropU then SubBuffer_empty else uvBuf_ t) in
      if dropP || dropU then
        let t := (updateDevice t).1 in
        with_context t (call Rerecord (context t))
      else t
    else t
  else t.

End DeviceSync.

(** ** Queries *)

Section Queries.
Context {F : Type} `{Scalar F}.

(** The loop of [Text::charAt], from the value [i] of the counter on; one
    unit of fuel per test of the loop condition. *)
Fixpoint charAt_loop (fuel : nat) (posCache : list (Vec2f F)) (x : F) (i : Z)
  : outcome Z :=
  match fuel with
  | O => OutOfFuel
  | S fuel =>
      if i <? vsize posCache then
        match vat posCache (wrap32 (i + vertIndex2)) with
        | None => Undefined
        | Some v =>
            if fltb x (Vec2.x v) then Ret (i / 6)
            else charAt_loop fuel posCache x (wrap32 (i + 6))
        end
      else Ret (wrap32 (vsize posCache / 6))
  end.

(** [Text::charAt]. *)
Definition charAt (fuel : nat) (t : Text F) (x : F) : outcome Z :=
  let x := x ⊕ Vec2.x (position (state_ t)) in
  charAt_loop fuel (posCache_ t) x 0.

(** [Text::ithBounds]. *)
Definition ithBounds (t : Text F) (n : Z) : outcome (Rect2f F) :=
  let text := utf32 (state_ t) in
  let position := position (state_ t) in
  if (vsize (posCache_ t) <=? wrap32 (n * 6)) || (vsize text <=? n)
  then ThrowOutOfRange
  else
    match vat (posCache_ t) (wrap32 (wrap32 (n * 6) + vertIndex0)),
          vat (posCache_ t) (wrap32 (wrap32 (n * 6) + vertIndex2)),
          vat text n with
    | Some start, Some end_, Some c =>
        match nk_font_find_glyph (nkFont (font (state_ t))) c with
        | Some pglyph =>
            Ret (Rect2.mk (vsub start position)
                   (Vec2.mk (xadvance pglyph)
                      (Vec2.y end_ ⊖ Vec2.y start)))
        | None => Undefined
        end
    | _, _, _ => Undefined
    end.

End Queries.

(** ** The layout in closed form *)

Section Layout.
Context {F : Type} `{Scalar F}.

(** The four corners of a glyph's quad with the cursor at [x]: left
    corners take [x0], right corners [x1], top corners [y0], bottom corners
    [y1]; and the same corners in the atlas. *)
Definition top_left (position : Vec2f F) (x : F) (g : nk_font_glyph F) :=
  Vec2.mk (x ⊕ x0 g) (Vec2.y position ⊕ y0 g).
Definition top_right (position : Vec2f F) (x : F) (g : nk_font_glyph F) :=
  Vec2.mk (x ⊕ x1 g) (Vec2.y position ⊕ y0 g).
Definition bottom_left (position : Vec2f F) (x : F) (g : nk_font_glyph F) :=
  Vec2.mk (x ⊕ x0 g) (Vec2.y position ⊕ y1 g).
Definition bottom_right (position : Vec2f F) (x : F) (g : nk_font_glyph F) :=
  Vec2.mk (x ⊕ x1 g) (Vec2.y position ⊕ y1 g).

Definition uv_top_left (g : nk_font_glyph F) := Vec2.mk (u0 g) (v0 g).
Definition uv_top_right (g : nk_font_glyph F) := Vec2.mk (u1 g) (v0 g).
Definition uv_bottom_left (g : nk_font_glyph F) := Vec2.mk (u0 g) (v1 g).
Definition uv_bottom_right (g : nk_font_glyph F) := Vec2.mk (u1 g) (v1 g).

(** What the indices 1, 1, 0, 2, 3, 3 make [addVert] push. *)
Definition quadPos (position : Vec2f F) (x : F) (g : nk_font_glyph F)
  : list (Vec2f F) :=
  [top_right position x g; top_right position x g; top_left position x g;
   bottom_right position x g; bottom_left position x g;
   bottom_left position x g].

Definition quadUV (g : nk_font_glyph F) : list (Vec2f F) :=
  [uv_top_right g; uv_top_right g; uv_top_left g;
   uv_bottom_right g; uv_bottom_left g; uv_bottom_left g].

(** The order the specification gives: top-left, top-left, bottom-left,
    top-right, bottom-right, bottom-right. *)
Definition spec_quadPos (position : Vec2f F) (x : F) (g : nk_font_glyph F)
  : list (Vec2f F) :=
  [top_left position x g; top_left position x g; bottom_left position x g;
   top_right position x g; bottom_right position x g;
   bottom_right position x g].

Definition spec_quadUV (g : nk_font_glyph F) : list (Vec2f F) :=
  [uv_top_left g; uv_top_left g; uv_bottom_left g;
   uv_top_right g; uv_bottom_right g; uv_bottom_right g].

(** The cursor after the characters of [text], started at [x]. *)
Definition cursor (fnt : Font F) (x : F) (text : list Z) : F :=
  fold_left (fun x c => x ⊕ xadvance (glyph fnt c)) text x.

Fixpoint layoutPos (fnt : Font F) (position : Vec2f F) (x : F)
    (text : list Z) : list (Vec2f F) :=
  match text with
  | [] => []
  | c :: text =>
      quadPos position x (glyph fnt c)
      ++ layoutPos fnt position (x ⊕ xadvance (glyph fnt c)) text
  end.

Fixpoint layoutUV (fnt : Font F) (text : list Z) : list (Vec2f F) :=
  match text with
  | [] => []
  | c :: text => quadUV (glyph fnt c) ++ layoutUV fnt text
  end.

(** The statement of the specification's vertex order for a text [t]
    rebuilt with [ensureBaked]. *)
Definition emits_in_spec_order (ensureBaked : Text F -> Text F) (t : Text F)
  : Prop :=
  forall (j : nat) (c : Z),
    utf32 (state_ t) !! j = Some c ->
    let p := position (state_ t) in
    let g := glyph (font (state_ t)) c in
    let cx := cursor (font (state_ t)) (Vec2.x p) (take j (utf32 (state_ t))) in
    take 6 (drop (6 * j) (posCache_ (update ensureBaked t)))
      = spec_quadPos p cx g
    /\ take 6 (drop (6 * j) (uvCache_ (update ensureBaked t)))
      = spec_quadUV g.

End Layout.

(** ** Construction and text change *)

Section Lifecycle.
Context {F : Type} `{Scalar F}.
Variable ensureBaked : Text F -> Text F.

(** The constructor [Text::Text]: register with the font's atlas, rebuild,
    sync.  The initial values of [deviceLocal_] and [disable_] come from
    the class declaration, which is not among the sources. *)
Definition Text_new (ctx : Context) (txt : list Z) (f : Font F)
    (xpos : Vec2f F) (deviceLocal0 disable0 : bool) : Text F :=
  let t := {| context := call (AtlasAdded (atlas f)) ctx;
              state_ := {| utf32 := txt; font := f; position := xpos |};
              deviceLocal_ := deviceLocal0;
              disable_ := disable0;
              posCache_ := [];
              uvCache_ := [];
              posBuf_ := SubBuffer_empty;
              uvBuf_ := SubBuffer_empty;
              oldAtlas_ := atlas f |} in
  (updateDevice (update ensureBaked t)).1.

(** Assignment to [state_.utf32], followed by the rebuild and the sync the
    change triggers. *)
Definition with_utf32 (t : Text F) (txt : list Z) : Text F :=
  {| context := context t;
     state_ := {| utf32 := txt;
                  font := font (state_ t);
                  position := position (state_ t) |};
     deviceLocal_ := deviceLocal_ t;
     disable_ := disable_ t;
     posCache_ := posCache_ t;
     uvCache_ := uvCache_ t;
     posBuf_ := posBuf_ t;
     uvBuf_ := uvBuf_ t;
     oldAtlas_ := oldAtlas_ t |}.

Definition set_text (t : Text F) (txt : list Z) : Text F :=
  (updateDevice (update ensureBaked (with_utf32 t txt))).1.

End Lifecycle.

(** ** Conditions on a text object *)

Section Conditions.
Context {F : Type}.

(** The position cache holds whole quads; a count fits an
    [unsigned]. *)
Definition whole_quads (t : Text F) : Prop :=
  vsize (posCache_ t) mod 6 = 0.

Definition fits_unsigned (z : Z) : Prop := z < 2 ^ 32.

(** A byte count fits a [vk::DeviceSize]. *)
Definition fits_DeviceSize (z : Z) : Prop := z < 2 ^ 64.

(** The caches are as a rebuild leaves them for the current text. *)
Definition caches_in_step (t : Text F) : Prop :=
  vsize (posCache_ t) = 6 * vsize (utf32 (state_ t))
  /\ vsize (uvCache_ t) = 6 * vsize (utf32 (state_ t)).

(** The byte sizes [Text::updateDevice] asks for. *)
Definition posNeeded (t : Text F) : Z :=
  sizeof_DrawIndirectCommand + sizeof_Vec2f * vsize (posCache_ t).
Definition uvNeeded (t : Text F) : Z :=
  sizeof_Vec2f * vsize (uvCache_ t).

(** The draw command at the head of a buffer's data. *)
Definition descriptor (buf : SubBuffer F) : option DrawIndirectCommand :=
  match buf_data buf with
  | RawCmd cmd :: _ => Some cmd
  | _ => None
  end.

(** The usage flags and the memory-type bits [checkResize] allocates
    with. *)
Definition usageFor (deviceLocal : bool) : Z :=
  if deviceLocal then Z.lor vertexBuffer transferDst else vertexBuffer.
Definition memBitsFor (t : Text F) : Z :=
  if deviceLocal_ t then deviceMemoryTypes (device (context t))
  else hostMemoryTypes (device (context t)).

End Conditions.

(** The two rectangles of a two-character text do not overlap
    horizontally, in binary32 arithmetic. *)
Definition bounds_disjoint (t : Text binary32) : Prop :=
  exists r0 r1,
    ithBounds t 0 = Ret r0 /\ ithBounds t 1 = Ret r1
    /\ SFleb (Vec2.x (Rect2.position r0) ⊕ Vec2.x (Rect2.size r0))
             (Vec2.x (Rect2.position r1)) = true.

(** ** Sample objects *)

Module Sample.

Definition f32 : Z -> binary32 := b32_of_Z.

(** The glyph of the specification's scenario:
    [{x0:0, y0:0, x1:10, y1:20, advance:12}], at atlas rectangle
    (1,2)-(3,4). *)
Definition glyphA : nk_font_glyph binary32 :=
  {| xadvance := f32 12;
     x0 := f32 0; y0 := f32 0; x1 := f32 10; y1 := f32 20;
     u0 := f32 1; v0 := f32 2; u1 := f32 3; v1 := f32 4 |}.

(** A glyph that starts 3 units right of the pen, and one that starts at
    the pen; both advance by 10. *)
Definition glyphWide : nk_font_glyph binary32 :=
  {| xadvance := f32 10;
     x0 := f32 3; y0 := f32 0; x1 := f32 9; y1 := f32 20;
     u0 := f32 1; v0 := f32 2; u1 := f32 3; v1 := f32 4 |}.
Definition glyphFlush : nk_font_glyph binary32 :=
  {| xadvance := f32 10;
     x0 := f32 0; y0 := f32 0; x1 := f32 8; y1 := f32 20;
     u0 := f32 5; v0 := f32 2; u1 := f32 7; v1 := f32 4 |}.

Definition table (c : Z) : nk_font_glyph binary32 :=
  if c =? 65 then glyphA else if c =? 66 then glyphFlush else glyphWide.

(** A font that covers every character: [ensureRange] never extends. *)
Definition fontCovered : Font binary32 :=
  {| atlas := 0%nat;
     ensureRange := fun _ => false;
     glyph := table;
     nkFont := {| glyphs := fun c => Some (table c) |} |}.

(** A font that has to extend its range for any text. *)
Definition fontUncovered : Font binary32 :=
  {| atlas := 0%nat;
     ensureRange := fun _ => true;
     glyph := table;
     nkFont := {| glyphs := fun c => Some (table c) |} |}.

(** Memory type 0 is device-local, memory type 1 host-visible. *)
Definition dev : Device :=
  {| deviceMemoryTypes := 1; hostMemoryTypes := 2; memoryTypeFor := Z.log2 |}.

Definition ctx0 : Context := {| device := dev; calls := [] |}.

Definition origin : Vec2f binary32 := Vec2.mk (f32 5) (f32 5).

(** The text "A" at (5,5), host-visible and visible. *)
Definition textA : Text binary32 :=
  Text_new id ctx0 [65] fontCovered origin false false.

(** The text "CB" at (5,5): a glyph that starts right of the pen, then one
    that starts at the pen. *)
Definition textCB : Text binary32 :=
  Text_new id ctx0 [67; 66] fontCovered origin false false.

(** A text object before its first rebuild, with a font that must extend
    its range; the caches hold a stale quad. *)
Definition textStale : Text binary32 :=
  {| context := ctx0;
     state_ := {| utf32 := [65; 66]; font := fontUncovered;
                  position := origin |};
     deviceLocal_ := false;
     disable_ := false;
     posCache_ := posCache_ textA;
     uvCache_ := uvCache_ textA;
     posBuf_ := posBuf_ textA;
     uvBuf_ := uvBuf_ textA;
     oldAtlas_ := 0%nat |}.

(** A text made with a font that must extend its range, and an atlas bake
    that has no text to call back yet: its caches are empty. *)
Definition textFresh : Text binary32 :=
  Text_new id ctx0 [65] fontUncovered origin false false.

(** "AAAA" in device-local memory, then cut down to "A". *)
Definition textLong : Text binary32 :=
  Text_new id ctx0 [65; 65; 65; 65] fontCovered origin true false.
Definition textCut : Text binary32 := set_text id textLong [65].

End Sample.

(** ** Width, destruction and font change *)

(** The literal [0.f]. *)
Class ScalarZero (F : Type) := fzero : F.

#[export] Instance binary32_zero : ScalarZero binary32 := S754_zero false.

Section Width.
Context {F : Type} `{Scalar F} `{ScalarZero F}.

(** [Text::width]; [utf32().length() - 1] is a [size_t] that is narrowed to
    the [unsigned] parameter of [ithBounds], and what [ithBounds] throws
    passes through. *)
Definition width (t : Text F) : outcome F :=
  if bool_decide (utf32 (state_ t) = []) then Ret fzero
  else
    match ithBounds t 0 with
    | Ret first =>
        match ithBounds t (wrap32 (wrap64 (vsize (utf32 (state_ t)) - 1))) with
        | Ret last =>
            Ret (Vec2.x (Rect2.position last) ⊕ Vec2.x (Rect2.size last)
                 ⊖ Vec2.x (Rect2.position first))
        | ThrowOutOfRange => ThrowOutOfRange
        | Undefined => Undefined
        | OutOfFuel => OutOfFuel
        end
    | ThrowOutOfRange => ThrowOutOfRange
    | Undefined => Undefined
    | OutOfFuel => OutOfFuel
    end.

End Width.

Section Registration.
Context {F : Type}.

(** The destructor [Text::~Text] of an object that still has its context
    ([valid()]): it tells the atlas of the current font that the text is
    gone.  The result is the context after the call. *)
Definition Text_delete (t : Text F) : Context :=
  call (AtlasRemoved (atlas (font (state_ t)))) (context t).

(** Assignment to [state_.font]. *)
Definition with_font (t : Text F) (f : Font F) : Text F :=
  {| context := context t;
     state_ := {| utf32 := utf32 (state_ t);
                  font := f;
                  position := position (state_ t) |};
     deviceLocal_ := deviceLocal_ t;
     disable_ := disable_ t;
     posCache_ := posCache_ t;
     uvCache_ := uvCache_ t;
     posBuf_ := posBuf_ t;
     uvBuf_ := uvBuf_ t;
     oldAtlas_ := oldAtlas_ t |}.

(** Assignment to [state_.position]. *)
Definition with_position (t : Text F) (p : Vec2f F) : Text F :=
  {| context := context t;
     state_ := {| utf32 := utf32 (state_ t);
                  font := font (state_ t);
                  position := p |};
     deviceLocal_ := deviceLocal_ t;
     disable_ := disable_ t;
     posCache_ := posCache_ t;
     uvCache_ := uvCache_ t;
     posBuf_ := posBuf_ t;
     uvBuf_ := uvBuf_ t;
     oldAtlas_ := oldAtlas_ t |}.

(** The draw command [Text::updateDevice] builds. *)
Definition drawCommand (t : Text F) : DrawIndirectCommand :=
  {| vertexCount :=
       wrap32 (wrap64 ((if disable_ t then 0 else 1) * vsize (posCache_ t)));
     instanceCount := 1;
     firstVertex := 0;
     firstInstance := 0 |}.

(** What [Text::updateDevice] uploads to the UV buffer. *)
Definition uvUpload (t : Text F) : list (Raw F) :=
  if bool_decide (uvCache_ t = []) then [RawCmd (drawCommand t)]
  else [RawSpan (uvCache_ t)].

(** Both buffers are allocated and hold what a sync requires. *)
Definition buffers_suffice (t : Text F) : Prop :=
  buf_size (posBuf_ t) <> 0 /\ posNeeded t <= buf_size (posBuf_ t)
  /\ buf_size (uvBuf_ t) <> 0 /\ uvNeeded t <= buf_size (uvBuf_ t).

End Registration.

(** Modelled from the spec: the registry of the atlases (rvg/font.cpp is
    not among the sources), in which [added] enters the text and [removed]
    takes it out.  [registered] lists the atlases the text is entered in
    after a sequence of calls. *)
Fixpoint remove_first (a : nat) (l : list nat) : list nat :=
  match l with
  | [] => []
  | b :: l => if Nat.eqb a b then l else b :: remove_first a l
  end.

Definition registered_step (regs : list nat) (e : Event) : list nat :=
  match e with
  | AtlasAdded a => a :: regs
  | AtlasRemoved a => remove_first a regs
  | _ => regs
  end.

Definition registered (calls : list Event) : list nat :=
  fold_left registered_step calls [].

(** The allocations among a sequence of calls. *)
Definition allocations (calls : list Event) : list Event :=
  List.filter
    (fun e => match e with Allocate _ _ _ _ => true | _ => false end) calls.

(** ** Further sample objects *)

Module Example.

(** The covering font of [Sample], moved to atlas 1. *)
Definition fontOther : Font binary32 :=
  {| atlas := 1%nat;
     ensureRange := fun _ => false;
     glyph := Sample.table;
     nkFont := {| glyphs := fun c => Some (Sample.table c) |} |}.

(** A text without characters. *)
Definition textNone : Text binary32 :=
  Text_new id Sample.ctx0 [] Sample.fontCovered Sample.origin false false.

(** The text "AB" at (5,5): both glyphs start at the pen. *)
Definition textAB : Text binary32 :=
  Text_new id Sample.ctx0 [65; 66] Sample.fontCovered Sample.origin
    false false.

(** The text "ABA" at (5,5). *)
Definition textABA : Text binary32 :=
  Text_new id Sample.ctx0 [65; 66; 65] Sample.fontCovered Sample.origin
    false false.

End Example.
(** * Properties *)

(** ** The rebuild computes the closed-form layout *)

Section GeometryFacts.
Context {F : Type} `{Scalar F}.

Lemma addVert_six (position : Vec2f F) x g pos uv :
  fold_left (addVert position x g) [1; 1; 0; 2; 3; 3] (pos, uv)
  = (pos ++ quadPos position x g, uv ++ quadUV g).
Proof.
  unfold addVert, quadPos, quadUV. cbn.
  rewrite <- !app_assoc. reflexivity.
Qed.

Lemma update_loop (fnt : Font F) position text : forall x pos uv,
  fold_left (update_char fnt position) text (x, (pos, uv))
  = (cursor fnt x text,
     (pos ++ layoutPos fnt position x text, uv ++ layoutUV fnt text)).
Proof.
  induction text as [|c text IH]; intros x pos uv.
  - cbn. by rewrite !app_nil_r.
  - cbn [fold_left]. unfold update_char at 2. cbn [fst snd].
    rewrite addVert_six, IH. cbn [layoutPos layoutUV cursor fold_left].
    by rewrite <- !app_assoc.
Qed.

Lemma length_layoutPos (fnt : Font F) position text : forall x,
  length (layoutPos fnt position x text) = (6 * length text)%nat.
Proof.
  induction text as [|c text IH]; intros x; [done|].
  cbn [layoutPos]. rewrite length_app, IH. cbn. lia.
Qed.

Lemma length_layoutUV (fnt : Font F) text :
  length (layoutUV fnt text) = (6 * length text)%nat.
Proof.
  induction text as [|c text IH]; [done|].
  cbn [layoutUV]. rewrite length_app, IH. cbn. lia.
Qed.

Lemma layoutPos_quad (fnt : Font F) position text : forall x (j : nat) c,
  text !! j = Some c ->
  take 6 (drop (6 * j) (layoutPos fnt position x text))
  = quadPos position (cursor fnt x (take j text)) (glyph fnt c).
Proof.
  induction text as [|d text IH]; intros x j c Hj; [done|].
  destruct j as [|j].
  - injection Hj as ->. reflexivity.
  - cbn in Hj. cbn [layoutPos take cursor fold_left].
    replace (6 * S j)%nat with (6 + 6 * j)%nat by lia.
    change (quadPos position x (glyph fnt d) ++ ?l)
      with (top_right position x (glyph fnt d)
            :: top_right position x (glyph fnt d)
            :: top_left position x (glyph fnt d)
            :: bottom_right position x (glyph fnt d)
            :: bottom_left position x (glyph fnt d)
            :: bottom_left position x (glyph fnt d) :: l).
    cbn [Nat.add drop]. by apply IH.
Qed.

Lemma layoutUV_quad (fnt : Font F) text : forall (j : nat) c,
  text !! j = Some c ->
  take 6 (drop (6 * j) (layoutUV fnt text)) = quadUV (glyph fnt c).
Proof.
  induction text as [|d text IH]; intros j c Hj; [done|].
  destruct j as [|j].
  - injection Hj as ->. reflexivity.
  - cbn in Hj. cbn [layoutUV].
    replace (6 * S j)%nat with (6 + 6 * j)%nat by lia.
    change (quadUV (glyph fnt d) ++ ?l)
      with (uv_top_right (glyph fnt d)
            :: uv_top_right (glyph fnt d)
            :: uv_top_left (glyph fnt d)
            :: uv_bottom_right (glyph fnt d)
            :: uv_bottom_left (glyph fnt d)
            :: uv_bottom_left (glyph fnt d) :: l).
    cbn [Nat.add drop]. by apply IH.
Qed.

(** [rebind] touches the context and [oldAtlas_] only. *)
Lemma rebind_state (t : Text F) : state_ (rebind t) = state_ t.
Proof. unfold rebind. by destruct (Nat.eqb _ _). Qed.

Lemma rebind_caches (t : Text F) :
  posCache_ (rebind t) = posCache_ t /\ uvCache_ (rebind t) = uvCache_ t.
Proof. unfold rebind. by destruct (Nat.eqb _ _). Qed.

(** The caches a rebuild that is not cut short leaves. *)
Lemma update_caches ensureBaked (t : Text F) :
  ensureRange (font (state_ t)) (utf32 (state_ t)) = false ->
  posCache_ (update ensureBaked t)
    = layoutPos (font (state_ t)) (position (state_ t))
        (Vec2.x (position (state_ t))) (utf32 (state_ t))
  /\ uvCache_ (update ensureBaked t)
    = layoutUV (font (state_ t)) (utf32 (state_ t)).
Proof.
  intros Hr. unfold update. rewrite rebind_state, Hr.
  cbn [posCache_ uvCache_]. by rewrite update_loop.
Qed.

Lemma update_state ensureBaked (t : Text F) :
  ensureRange (font (state_ t)) (utf32 (state_ t)) = false ->
  state_ (update ensureBaked t) = state_ t.
Proof.
  intros Hr. unfold update. rewrite rebind_state, Hr. cbn.
  reflexivity.
Qed.

End GeometryFacts.

(** ** Claims about the rebuild *)

(** C1 (as amended).  For every character of a rebuild that is not cut
    short, the six vertices pushed to the position cache, and the six pushed
    to the UV cache, are in the order top-right, top-right, top-left,
    bottom-right, bottom-left, bottom-left: left corners take the glyph's
    x0/u0, right corners x1/u1, top corners y0/v0, bottom corners y1/v1, and
    positions are offset by the running cursor and the object's
    [position.y]. *)
Theorem update_quad_order {F} `{Scalar F} (ensureBaked : Text F -> Text F)
    (t : Text F) (j : nat) (c : Z) :
  ensureRange (font (state_ t)) (utf32 (state_ t)) = false ->
  utf32 (state_ t) !! j = Some c ->
  let p := position (state_ t) in
  let g := glyph (font (state_ t)) c in
  let cx := cursor (font (state_ t)) (Vec2.x p) (take j (utf32 (state_ t))) in
  take 6 (drop (6 * j) (posCache_ (update ensureBaked t)))
    = [top_right p cx g; top_right p cx g; top_left p cx g;
       bottom_right p cx g; bottom_left p cx g; bottom_left p cx g]
  /\ take 6 (drop (6 * j) (uvCache_ (update ensureBaked t)))
    = [uv_top_right g; uv_top_right g; uv_top_left g;
       uv_bottom_right g; uv_bottom_left g; uv_bottom_left g].
Proof.
  intros Hr Hj p g cx.
  destruct (update_caches ensureBaked t Hr) as [-> ->].
  split.
  - exact (layoutPos_quad _ _ _ _ _ _ Hj).
  - exact (layoutUV_quad _ _ _ _ Hj).
Qed.

Lemma update_quad_order_witness :
  ensureRange (font (state_ Sample.textA)) (utf32 (state_ Sample.textA))
    = false
  /\ utf32 (state_ Sample.textA) !! 0%nat = Some 65
  /\ take 6 (drop (6 * 0) (posCache_ (update id Sample.textA)))
     = [Vec2.mk (Sample.f32 15) (Sample.f32 5);
        Vec2.mk (Sample.f32 15) (Sample.f32 5);
        Vec2.mk (Sample.f32 5) (Sample.f32 5);
        Vec2.mk (Sample.f32 15) (Sample.f32 25);
        Vec2.mk (Sample.f32 5) (Sample.f32 25);
        Vec2.mk (Sample.f32 5) (Sample.f32 25)].
Proof.
  split; [reflexivity|]. split; [reflexivity|].
  destruct (update_quad_order id Sample.textA 0 65 eq_refl eq_refl)
    as [Hp _].
  rewrite Hp. vm_compute. reflexivity.
Defined.

(** C1 (as stated) fails: for the text "A" the first vertex pushed is the
    top-right corner (15,5), not the top-left corner (5,5). *)
Lemma update_order_differs_from_spec :
  ensureRange (font (state_ Sample.textA)) (utf32 (state_ Sample.textA))
    = false
  /\ ~ emits_in_spec_order id Sample.textA.
Proof.
  split; [reflexivity|].
  intros Hs. destruct (Hs 0%nat 65 eq_refl) as [Hp _].
  vm_compute in Hp. discriminate Hp.
Qed.

(** C2.  After a rebuild that is not cut short, the position cache and the
    UV cache have the same size, six entries per character of the text. *)
Theorem update_cache_sizes {F} `{Scalar F} (ensureBaked : Text F -> Text F)
    (t : Text F) :
  ensureRange (font (state_ t)) (utf32 (state_ t)) = false ->
  vsize (posCache_ (update ensureBaked t))
    = vsize (uvCache_ (update ensureBaked t))
  /\ vsize (uvCache_ (update ensureBaked t))
    = 6 * vsize (utf32 (state_ (update ensureBaked t))).
Proof.
  intros Hr.
  destruct (update_caches ensureBaked t Hr) as [-> ->].
  rewrite (update_state ensureBaked t Hr).
  unfold vsize. rewrite length_layoutPos, length_layoutUV. lia.
Qed.

Lemma update_cache_sizes_witness :
  ensureRange (font (state_ Sample.textCB)) (utf32 (state_ Sample.textCB))
    = false
  /\ vsize (posCache_ (update id Sample.textCB)) = 12
  /\ vsize (uvCache_ (update id Sample.textCB)) = 12.
Proof.
  split; [reflexivity|].
  destruct (update_cache_sizes id Sample.textCB eq_refl) as [Hp Hu].
  rewrite Hp, Hu. split; reflexivity.
Defined.

(** C8.  When [ensureRange] reports that the font's range had to be
    extended, the rebuild hands the object, with both caches as they were on
    entry, to the atlas bake and returns what the bake leaves: it writes
    neither cache itself, so if the bake leaves them alone they are
    unchanged on return. *)
Theorem update_aborts_without_touching_caches {F} `{Scalar F}
    (ensureBaked : Text F -> Text F) (t : Text F) :
  ensureRange (font (state_ t)) (utf32 (state_ t)) = true ->
  update ensureBaked t = ensureBaked (rebind t)
  /\ posCache_ (rebind t) = posCache_ t
  /\ uvCache_ (rebind t) = uvCache_ t
  /\ ((forall s, posCache_ (ensureBaked s) = posCache_ s
                 /\ uvCache_ (ensureBaked s) = uvCache_ s) ->
      posCache_ (update ensureBaked t) = posCache_ t
      /\ uvCache_ (update ensureBaked t) = uvCache_ t).
Proof.
  intros Hr.
  assert (Hu : update ensureBaked t = ensureBaked (rebind t)).
  { unfold update. by rewrite rebind_state, Hr. }
  destruct (rebind_caches t) as [Hp Hv].
  split; [exact Hu|]. split; [exact Hp|]. split; [exact Hv|].
  intros Hbake. rewrite Hu.
  destruct (Hbake (rebind t)) as [-> ->]. by split.
Qed.

Lemma update_aborts_without_touching_caches_witness :
  ensureRange (font (state_ Sample.textStale))
    (utf32 (state_ Sample.textStale)) = true
  /\ posCache_ (update id Sample.textStale) = posCache_ Sample.textStale
  /\ uvCache_ (update id Sample.textStale) = uvCache_ Sample.textStale.
Proof.
  split; [reflexivity|].
  apply (update_aborts_without_touching_caches id Sample.textStale eq_refl).
  intros s. split; reflexivity.
Defined.

(** ** The queries *)

Section QueryFacts.
Context {F : Type} `{Scalar F}.

Lemma wrap32_small z : 0 <= z < 2 ^ 32 -> wrap32 z = z.
Proof. intros. unfold wrap32. by apply Z.mod_small. Qed.

Lemma wrap64_small z : 0 <= z < 2 ^ 64 -> wrap64 z = z.
Proof. intros. unfold wrap64. by apply Z.mod_small. Qed.

Lemma vat_nat {A} (v : list A) (i : nat) : vat v (Z.of_nat i) = v !! i.
Proof. unfold vat. by rewrite Nat2Z.id. Qed.

(** The scan of [Text::charAt] over a cache of [n] whole quads, entered at
    quad [k]: it returns the first quad from [k] on whose vertex
    [vertIndex2] lies right of [x], or [n]. *)
Lemma charAt_loop_scan (cache : list (Vec2f F)) (x : F) (n : nat) :
  length cache = (6 * n)%nat ->
  Z.of_nat (6 * n) < 2 ^ 32 ->
  forall (fuel k : nat),
    (k <= n)%nat -> (n - k < fuel)%nat ->
    exists r : nat,
      charAt_loop fuel cache x (Z.of_nat (6 * k)) = Ret (Z.of_nat r)
      /\ (k <= r <= n)%nat
      /\ (forall j, (k <= j < r)%nat ->
            exists v, cache !! (6 * j + 3)%nat = Some v
                      /\ fltb x (Vec2.x v) = false)
      /\ ((r < n)%nat ->
            exists v, cache !! (6 * r + 3)%nat = Some v
                      /\ fltb x (Vec2.x v) = true).
Proof.
  intros Hlen Hfit fuel.
  induction fuel as [|fuel IH]; intros k Hk Hfuel; [lia|].
  cbn [charAt_loop]. unfold vsize. rewrite Hlen.
  destruct (Z.ltb_spec (Z.of_nat (6 * k)) (Z.of_nat (6 * n))) as [Hlt|Hge].
  - assert (Hin : (6 * k + 3 < length cache)%nat) by lia.
    destruct (lookup_lt_is_Some_2 cache _ Hin) as [v Hv].
    unfold vertIndex2.
    rewrite wrap32_small by lia.
    replace (Z.of_nat (6 * k) + 3) with (Z.of_nat (6 * k + 3)) by lia.
    rewrite vat_nat, Hv.
    destruct (fltb x (Vec2.x v)) eqn:Hcmp.
    + exists k. split.
      { f_equal. replace (Z.of_nat (6 * k)) with (Z.of_nat k * 6) by lia.
        apply Z.div_mul. lia. }
      split; [lia|]. split; [intros j Hj; lia|].
      intros _. by exists v.
    + rewrite wrap32_small by lia.
      replace (Z.of_nat (6 * k) + 6) with (Z.of_nat (6 * S k)) by lia.
      destruct (IH (S k)) as (r & Hr & Hrange & Hbefore & Hat); [lia..|].
      exists r. split; [exact Hr|]. split; [lia|]. split; [|exact Hat].
      intros j Hj. destruct (decide (j = k)) as [->|Hne].
      * by exists v.
      * apply Hbefore. lia.
  - exists n. split.
    { f_equal. replace (Z.of_nat (6 * n)) with (Z.of_nat n * 6) by lia.
      rewrite Z.div_mul by lia. apply wrap32_small. lia. }
    split; [lia|]. split; [intros j Hj; lia|]. lia.
Qed.

(** A cache of whole quads has [6 * n] entries for some [n]. *)
Lemma whole_quads_length (t : Text F) :
  whole_quads t ->
  exists n : nat, length (posCache_ t) = (6 * n)%nat
                  /\ vsize (posCache_ t) / 6 = Z.of_nat n.
Proof.
  unfold whole_quads, vsize. intros Hm.
  exists (Z.to_nat (Z.of_nat (length (posCache_ t)) / 6)).
  pose proof (Z.div_mod (Z.of_nat (length (posCache_ t))) 6 ltac:(lia)) as Hd.
  pose proof (Z.div_pos (Z.of_nat (length (posCache_ t))) 6
                ltac:(lia) ltac:(lia)) as Hp.
  split; lia.
Qed.

(** Entry [m] of quad [j] of a cache, read off the quad's six entries. *)
Lemma quad_entry (cache quad : list (Vec2f F)) (j m : nat) (v : Vec2f F) :
  take 6 (drop (6 * j) cache) = quad ->
  (m < 6)%nat ->
  quad !! m = Some v ->
  cache !! (6 * j + m)%nat = Some v.
Proof.
  intros <- Hm. by rewrite lookup_take_lt, lookup_drop.
Qed.

(** After a rebuild, vertex [vertIndex0] of quad [j] is the top-left
    corner of character [j] and vertex [vertIndex2] its bottom-right
    corner. *)
Lemma update_left_right_vertex ensureBaked (t : Text F) (j : nat) (c : Z) :
  ensureRange (font (state_ t)) (utf32 (state_ t)) = false ->
  utf32 (state_ t) !! j = Some c ->
  let p := position (state_ t) in
  let g := glyph (font (state_ t)) c in
  let cx := cursor (font (state_ t)) (Vec2.x p) (take j (utf32 (state_ t))) in
  posCache_ (update ensureBaked t) !! (6 * j + 2)%nat = Some (top_left p cx g)
  /\ posCache_ (update ensureBaked t) !! (6 * j + 3)%nat
     = Some (bottom_right p cx g).
Proof.
  intros Hr Hj p g cx.
  destruct (update_caches ensureBaked t Hr) as [-> _].
  pose proof (layoutPos_quad (font (state_ t)) p (utf32 (state_ t))
                (Vec2.x p) j c Hj) as Hq.
  split; (eapply quad_entry; [exact Hq | lia | reflexivity]).
Qed.

(** [Text::ithBounds] on a cache of whole quads, when the index
    arithmetic does not wrap. *)
Lemma ithBounds_cases (t : Text F) (n : Z) :
  whole_quads t ->
  fits_unsigned (6 * vsize (utf32 (state_ t))) ->
  0 <= n ->
  (vsize (posCache_ t) <= 6 * n \/ vsize (utf32 (state_ t)) <= n) /\
    ithBounds t n = ThrowOutOfRange
  \/ ~ (vsize (posCache_ t) <= 6 * n \/ vsize (utf32 (state_ t)) <= n) /\
     exists start end_ c,
       vat (posCache_ t) (6 * n + vertIndex0) = Some start
       /\ vat (posCache_ t) (6 * n + vertIndex2) = Some end_
       /\ vat (utf32 (state_ t)) n = Some c
       /\ ithBounds t n =
          match nk_font_find_glyph (nkFont (font (state_ t))) c with
          | Some pglyph =>
              Ret (Rect2.mk (vsub start (position (state_ t)))
                     (Vec2.mk (xadvance pglyph)
                        (Vec2.y end_ ⊖ Vec2.y start)))
          | None => Undefined
          end.
Proof.
  intros Hw Hfit Hn. unfold ithBounds, fits_unsigned in *.
  destruct (Z.leb_spec (vsize (utf32 (state_ t))) n) as [Hlen|Hlen].
  { left. split; [by right|]. by rewrite orb_true_r. }
  rewrite orb_false_r.
  rewrite (wrap32_small (n * 6)) by lia.
  destruct (Z.leb_spec (vsize (posCache_ t)) (n * 6)) as [Hc|Hc].
  { left. split; [left; lia | reflexivity]. }
  right. split; [lia|].
  destruct (whole_quads_length t Hw) as (k & Hk & _).
  unfold vertIndex0, vertIndex2, vsize in *.
  rewrite !wrap32_small by lia.
  assert (H2 : (Z.to_nat (n * 6 + 2) < length (posCache_ t))%nat) by lia.
  assert (H3 : (Z.to_nat (n * 6 + 3) < length (posCache_ t))%nat) by lia.
  assert (Hc' : (Z.to_nat n < length (utf32 (state_ t)))%nat) by lia.
  destruct (lookup_lt_is_Some_2 _ _ H2) as [start Hs].
  destruct (lookup_lt_is_Some_2 _ _ H3) as [end_ He].
  destruct (lookup_lt_is_Some_2 _ _ Hc') as [c Hch].
  exists start, end_, c. unfold vat.
  replace (6 * n + 2) with (n * 6 + 2) by lia.
  replace (6 * n + 3) with (n * 6 + 3) by lia.
  rewrite Hs, He, Hch. done.
Qed.

(** [Text::ithBounds] on a rebuilt text: the rectangle of character [j]
    runs from its top-left corner, is as wide as the advance found by the
    second glyph lookup and as high as the quad. *)
Lemma ithBounds_after_update ensureBaked (t : Text F) (j : nat) (c : Z)
    (pglyph : nk_font_glyph F) :
  ensureRange (font (state_ t)) (utf32 (state_ t)) = false ->
  fits_unsigned (6 * vsize (utf32 (state_ t))) ->
  utf32 (state_ t) !! j = Some c ->
  nk_font_find_glyph (nkFont (font (state_ t))) c = Some pglyph ->
  let p := position (state_ t) in
  let g := glyph (font (state_ t)) c in
  let cx := cursor (font (state_ t)) (Vec2.x p) (take j (utf32 (state_ t))) in
  ithBounds (update ensureBaked t) (Z.of_nat j)
  = Ret (Rect2.mk (vsub (top_left p cx g) p)
           (Vec2.mk (xadvance pglyph)
              (Vec2.y (bottom_right p cx g) ⊖ Vec2.y (top_left p cx g)))).
Proof.
  intros Hr Hfit Hj Hg p g cx.
  pose proof (lookup_lt_Some _ _ _ Hj) as Hlt.
  destruct (update_left_right_vertex ensureBaked t j c Hr Hj) as [Htl Hbr].
  assert (Hlen : vsize (posCache_ (update ensureBaked t))
                 = 6 * vsize (utf32 (state_ t))).
  { destruct (update_caches ensureBaked t Hr) as [-> _].
    unfold vsize. rewrite length_layoutPos. lia. }
  destruct (ithBounds_cases (update ensureBaked t) (Z.of_nat j))
    as [[Hout _] | [_ (start & end_ & d & Hs & He & Hd & ->)]].
  - unfold whole_quads. rewrite Hlen.
    rewrite Z.mul_comm. apply Z.mod_mul. lia.
  - by rewrite (update_state ensureBaked t Hr).
  - lia.
  - rewrite (update_state ensureBaked t Hr) in Hout.
    unfold vsize in *. lia.
  - rewrite (update_state ensureBaked t Hr) in *.
    unfold vertIndex0, vertIndex2 in *.
    replace (6 * Z.of_nat j + 2) with (Z.of_nat (6 * j + 2)) in Hs by lia.
    replace (6 * Z.of_nat j + 3) with (Z.of_nat (6 * j + 3)) in He by lia.
    rewrite vat_nat in Hs. rewrite vat_nat in He. rewrite vat_nat in Hd.
    rewrite Htl in Hs. rewrite Hbr in He. rewrite Hj in Hd.
    injection Hs as <-. injection He as <-. injection Hd as <-.
    by rewrite Hg.
Qed.

End QueryFacts.

(** C6.  On a rebuilt text, [charAt x] scans the quads in layout order and
    returns the index of the first character whose right edge (cursor plus
    the glyph's x1) lies right of the query [x + position.x]; when no
    character's right edge does, it returns the number of characters. *)
Theorem charAt_first_right_edge {F} `{Scalar F}
    (ensureBaked : Text F -> Text F) (t : Text F) (x : F) (fuel : nat) :
  ensureRange (font (state_ t)) (utf32 (state_ t)) = false ->
  fits_unsigned (6 * vsize (utf32 (state_ t))) ->
  (length (utf32 (state_ t)) < fuel)%nat ->
  let text := utf32 (state_ t) in
  let q := x ⊕ Vec2.x (position (state_ t)) in
  let right_edge (j : nat) (c : Z) :=
    cursor (font (state_ t)) (Vec2.x (position (state_ t))) (take j text)
    ⊕ x1 (glyph (font (state_ t)) c) in
  exists r : nat,
    charAt fuel (update ensureBaked t) x = Ret (Z.of_nat r)
    /\ (r <= length text)%nat
    /\ (forall j c, (j < r)%nat -> text !! j = Some c ->
          fltb q (right_edge j c) = false)
    /\ (forall c, text !! r = Some c -> fltb q (right_edge r c) = true)
    /\ ((forall j c, text !! j = Some c -> fltb q (right_edge j c) = false) ->
        r = length text).
Proof.
  intros Hr Hfit Hfuel text q right_edge.
  unfold charAt, fits_unsigned, vsize in *.
  rewrite (update_state ensureBaked t Hr). fold q.
  assert (Hlen : length (posCache_ (update ensureBaked t))
                 = (6 * length text)%nat).
  { destruct (update_caches ensureBaked t Hr) as [-> _].
    apply length_layoutPos. }
  assert (Hfit' : Z.of_nat (6 * length text) < 2 ^ 32) by (unfold text; lia).
  assert (Hfuel' : (length text - 0 < fuel)%nat) by (unfold text; lia).
  destruct (charAt_loop_scan (posCache_ (update ensureBaked t)) q
              (length text) Hlen Hfit' fuel 0%nat ltac:(lia) Hfuel')
    as (r & Hret & Hrange & Hbefore & Hat).
  assert (Hedge : forall j c v, text !! j = Some c ->
            posCache_ (update ensureBaked t) !! (6 * j + 3)%nat = Some v ->
            Vec2.x v = right_edge j c).
  { intros j c v Hj Hv.
    destruct (update_left_right_vertex ensureBaked t j c Hr Hj) as [_ Hbr].
    rewrite Hbr in Hv. injection Hv as <-. reflexivity. }
  assert (Hhit : forall c, text !! r = Some c ->
            fltb q (right_edge r c) = true).
  { intros c Hc.
    destruct Hat as (v & Hv & Hcmp).
    - by apply lookup_lt_Some in Hc.
    - by rewrite <- (Hedge r c v Hc Hv). }
  exists r. split; [exact Hret|]. split; [lia|]. split; [|split].
  - intros j c Hj Hc.
    destruct (Hbefore j ltac:(lia)) as (v & Hv & Hcmp).
    by rewrite <- (Hedge j c v Hc Hv).
  - exact Hhit.
  - intros Hnone.
    destruct (decide (r = length text)) as [|Hne]; [done|].
    destruct (lookup_lt_is_Some_2 text r ltac:(lia)) as [c Hc].
    pose proof (Hhit c Hc) as Ht. rewrite (Hnone r c Hc) in Ht. done.
Qed.

Lemma charAt_first_right_edge_witness :
  ensureRange (font (state_ Sample.textCB)) (utf32 (state_ Sample.textCB))
    = false
  /\ fits_unsigned (6 * vsize (utf32 (state_ Sample.textCB)))
  /\ (length (utf32 (state_ Sample.textCB)) < 3)%nat
  /\ exists r : nat,
       charAt 3 (update id Sample.textCB) (Sample.f32 12) = Ret (Z.of_nat r)
       /\ (r <= 2)%nat.
Proof.
  split; [reflexivity|]. split; [reflexivity|]. split; [cbn; lia|].
  destruct (charAt_first_right_edge id Sample.textCB (Sample.f32 12) 3
              eq_refl eq_refl ltac:(cbn; lia))
    as (r & Hret & Hle & _).
  exists r. split; [exact Hret | exact Hle].
Defined.

(** C10.  [charAt] is total on every cache of whole quads whose vertex
    count fits an [unsigned], the empty cache included: given fuel for one
    loop test per quad and the final one it returns, without reading past
    the end of the cache, an index between 0 and [posCache_.size() / 6]. *)
Theorem charAt_total {F} `{Scalar F} (t : Text F) (x : F) (fuel : nat) :
  whole_quads t ->
  fits_unsigned (vsize (posCache_ t)) ->
  vsize (posCache_ t) / 6 < Z.of_nat fuel ->
  exists r, charAt fuel t x = Ret r /\ 0 <= r <= vsize (posCache_ t) / 6.
Proof.
  intros Hw Hfit Hfuel.
  destruct (whole_quads_length t Hw) as (n & Hlen & Hdiv).
  unfold fits_unsigned, vsize in *. rewrite Hdiv in *.
  destruct (charAt_loop_scan (posCache_ t)
              (x ⊕ Vec2.x (position (state_ t))) n Hlen ltac:(lia)
              fuel 0%nat ltac:(lia) ltac:(lia))
    as (r & Hret & Hrange & _).
  exists (Z.of_nat r). split; [exact Hret | lia].
Qed.

Lemma charAt_total_witness :
  whole_quads Sample.textFresh
  /\ posCache_ Sample.textFresh = []
  /\ exists r, charAt 1 Sample.textFresh (Sample.f32 3) = Ret r
               /\ 0 <= r <= vsize (posCache_ Sample.textFresh) / 6.
Proof.
  split; [reflexivity|]. split; [reflexivity|].
  apply (charAt_total Sample.textFresh (Sample.f32 3) 1);
    [reflexivity | reflexivity | reflexivity].
Defined.

(** C7.  [ithBounds n] throws [std::out_of_range] exactly when the position
    cache holds no quad [n] or the text has no character [n]; otherwise it
    returns the rectangle at the cached vertex [vertIndex0] of quad [n] minus
    the object's position, as wide as the advance of the glyph looked up
    again in the font, and as high as the difference of the y coordinates of
    the cached vertices [vertIndex2] and [vertIndex0]. *)
Theorem ithBounds_out_of_range_or_rect {F} `{Scalar F} (t : Text F) (n : Z) :
  whole_quads t ->
  fits_unsigned (6 * vsize (utf32 (state_ t))) ->
  0 <= n < 2 ^ 32 ->
  (forall c, vat (utf32 (state_ t)) n = Some c ->
     is_Some (nk_font_find_glyph (nkFont (font (state_ t))) c)) ->
  (ithBounds t n = ThrowOutOfRange
   <-> vsize (posCache_ t) <= 6 * n \/ vsize (utf32 (state_ t)) <= n)
  /\ (~ (vsize (posCache_ t) <= 6 * n \/ vsize (utf32 (state_ t)) <= n) ->
      exists start end_ c pglyph,
        vat (posCache_ t) (6 * n + vertIndex0) = Some start
        /\ vat (posCache_ t) (6 * n + vertIndex2) = Some end_
        /\ vat (utf32 (state_ t)) n = Some c
        /\ nk_font_find_glyph (nkFont (font (state_ t))) c = Some pglyph
        /\ ithBounds t n =
           Ret (Rect2.mk (vsub start (position (state_ t)))
                  (Vec2.mk (xadvance pglyph)
                     (Vec2.y end_ ⊖ Vec2.y start)))).
Proof.
  intros Hw Hfit [Hn _] Hglyph.
  destruct (ithBounds_cases t n Hw Hfit Hn)
    as [[Hout Hthrow] | [Hin (start & end_ & c & Hs & He & Hc & Hres)]].
  - split; [by split | by intros []].
  - destruct (Hglyph c Hc) as [pglyph Hg]. rewrite Hg in Hres.
    split.
    + split; [rewrite Hres; discriminate | by intros ?].
    + intros _. by exists start, end_, c, pglyph.
Qed.

Lemma ithBounds_out_of_range_or_rect_witness :
  ithBounds Sample.textA 0
  = Ret (Rect2.mk (Vec2.mk (Sample.f32 0) (Sample.f32 0))
           (Vec2.mk (Sample.f32 12) (Sample.f32 20)))
  /\ ithBounds Sample.textA 1 = ThrowOutOfRange.
Proof.
  assert (Hg : forall n c, vat (utf32 (state_ Sample.textA)) n = Some c ->
            is_Some (nk_font_find_glyph
                       (nkFont (font (state_ Sample.textA))) c)).
  { intros n c _. by eexists. }
  split.
  - destruct (ithBounds_out_of_range_or_rect Sample.textA 0
                eq_refl eq_refl ltac:(lia) (Hg 0)) as [_ Hrect].
    assert (Hin : ~ (vsize (posCache_ Sample.textA) <= 6 * 0
                     \/ vsize (utf32 (state_ Sample.textA)) <= 0)).
    { vm_compute. intros [Hx|Hx]; apply Hx; reflexivity. }
    destruct (Hrect Hin)
      as (start & end_ & c & pglyph & Hs & He & Hc & Hp & ->).
    vm_compute in Hs, He, Hc. injection Hs as <-. injection He as <-.
    injection Hc as <-. vm_compute in Hp. injection Hp as <-.
    vm_compute. reflexivity.
  - apply (ithBounds_out_of_range_or_rect Sample.textA 1
             eq_refl eq_refl ltac:(lia) (Hg 1)).
    left. vm_compute. discriminate.
Defined.

(** ** Neighbouring bounds *)

(** C9 (as stated) fails.  In the text "CB" both advances are positive
    (10), the first glyph starts 3 units right of the pen and the second at
    the pen: [ithBounds 0] spans 3 to 13 and [ithBounds 1] starts at 10. *)
Lemma bounds_overlap_CB :
  utf32 (state_ Sample.textCB) = [67; 66]
  /\ SFltb (Sample.f32 0) (xadvance (glyph Sample.fontCovered 67)) = true
  /\ SFltb (Sample.f32 0) (xadvance (glyph Sample.fontCovered 66)) = true
  /\ ithBounds Sample.textCB 0
     = Ret (Rect2.mk (Vec2.mk (Sample.f32 3) (Sample.f32 0))
              (Vec2.mk (Sample.f32 10) (Sample.f32 20)))
  /\ ithBounds Sample.textCB 1
     = Ret (Rect2.mk (Vec2.mk (Sample.f32 10) (Sample.f32 0))
              (Vec2.mk (Sample.f32 10) (Sample.f32 20)))
  /\ ~ bounds_disjoint Sample.textCB.
Proof.
  repeat (split; [vm_compute; reflexivity|]).
  intros (r0 & r1 & H0 & H1 & Hle).
  vm_compute in H0. vm_compute in H1.
  injection H0 as <-. injection H1 as <-.
  vm_compute in Hle. discriminate Hle.
Qed.

(** C9 (as amended).  For every rebuilt two-character text whose glyphs
    are found, [ithBounds 0] and [ithBounds 1] return rectangles: the first
    starts at [(position.x + x0) - position.x] for the x0 of the first glyph
    and is as wide as that glyph's advance, the second starts at
    [((position.x + advance) + x0') - position.x] for the x0' of the second
    glyph, every operation being a float operation.  The right edge of the
    first is at most the left edge of the second exactly when the float
    comparison of these two values says so; positive advances do not decide
    it. *)
Theorem bounds_disjoint_iff_edges (bake : Text binary32 -> Text binary32)
    (t : Text binary32) (a b : Z) (pa pb : nk_font_glyph binary32) :
  let fnt := font (state_ t) in
  let px := Vec2.x (position (state_ t)) in
  utf32 (state_ t) = [a; b] ->
  ensureRange fnt (utf32 (state_ t)) = false ->
  nk_font_find_glyph (nkFont fnt) a = Some pa ->
  nk_font_find_glyph (nkFont fnt) b = Some pb ->
  let left0 := px ⊕ x0 (glyph fnt a) ⊖ px in
  let left1 := px ⊕ xadvance (glyph fnt a) ⊕ x0 (glyph fnt b) ⊖ px in
  (exists r0 r1,
     ithBounds (update bake t) 0 = Ret r0
     /\ ithBounds (update bake t) 1 = Ret r1
     /\ Vec2.x (Rect2.position r0) = left0
     /\ Vec2.x (Rect2.size r0) = xadvance pa
     /\ Vec2.x (Rect2.position r1) = left1)
  /\ (bounds_disjoint (update bake t)
      <-> SFleb (left0 ⊕ xadvance pa) left1 = true).
Proof.
  intros fnt px Htext Hr Ha Hb left0 left1.
  assert (Hfit : fits_unsigned (6 * vsize (utf32 (state_ t)))).
  { rewrite Htext. reflexivity. }
  assert (H0 : utf32 (state_ t) !! 0%nat = Some a) by by rewrite Htext.
  assert (H1 : utf32 (state_ t) !! 1%nat = Some b) by by rewrite Htext.
  pose proof (ithBounds_after_update bake t 0 a pa Hr Hfit H0 Ha) as B0.
  pose proof (ithBounds_after_update bake t 1 b pb Hr Hfit H1 Hb) as B1.
  cbv zeta in B0, B1. rewrite Htext in B0, B1.
  cbn [take cursor fold_left] in B0, B1.
  change (Z.of_nat 0) with 0 in B0. change (Z.of_nat 1) with 1 in B1.
  split.
  - eexists _, _. split; [exact B0|]. split; [exact B1|].
    repeat split.
  - unfold bounds_disjoint. rewrite B0, B1. split.
    + intros (r0 & r1 & E0 & E1 & Hle).
      injection E0 as <-. injection E1 as <-. exact Hle.
    + intros Hle. eexists _, _.
      split; [reflexivity|]. split; [reflexivity|]. exact Hle.
Qed.

Lemma bounds_disjoint_iff_edges_witness :
  utf32 (state_ Example.textAB) = [65; 66]
  /\ bounds_disjoint (update id Example.textAB).
Proof.
  split; [reflexivity|].
  apply (bounds_disjoint_iff_edges id Example.textAB 65 66
           (Sample.table 65) (Sample.table 66)
           eq_refl eq_refl eq_refl eq_refl).
  vm_compute. reflexivity.
Defined.

(** ** The device buffers *)

Section DeviceFacts.
Context {F : Type}.

Lemma vsize_nonneg {A} (v : list A) : 0 <= vsize v.
Proof. unfold vsize. lia. Qed.

(** [checkResize] when doubling the request does not wrap. *)
Lemma checkResize_cases (dl : bool) (ctx : Context) (r : bool)
    (buf : SubBuffer F) (needed : Z) :
  0 <= needed -> fits_DeviceSize (2 * needed) ->
  let memBits := if dl then deviceMemoryTypes (device ctx)
                 else hostMemoryTypes (device ctx) in
  checkResize dl (ctx, r) buf needed
  = if decide (buf_size buf = 0 \/ buf_size buf < needed)
    then (call (Allocate (Z.max (2 * needed) 32) (usageFor dl) 4 memBits) ctx,
          true,
          {| buf_size := Z.max (2 * needed) 32;
             buf_usage := usageFor dl;
             buf_memType := memoryTypeFor (device ctx) memBits;
             buf_data := [] |})
    else (ctx, r, buf).
Proof.
  intros Hn Hfit memBits. unfold checkResize, fits_DeviceSize in *.
  cbn [fst snd]. rewrite wrap64_small by lia.
  destruct (Z.eqb_spec (buf_size buf) 0) as [He|He];
    destruct (Z.ltb_spec (buf_size buf) needed) as [Hl|Hl];
    case_decide; cbn [orb]; try reflexivity; try lia;
    by destruct dl.
Qed.

(** The two requests of [Text::updateDevice], without wrap-around. *)
Lemma updateDevice_requests (t : Text F) :
  fits_DeviceSize (2 * posNeeded t) ->
  fits_DeviceSize (2 * uvNeeded t) ->
  wrap64 (sizeof_DrawIndirectCommand
          + wrap64 (sizeof_Vec2f * vsize (posCache_ t))) = posNeeded t
  /\ wrap64 (sizeof_Vec2f * vsize (uvCache_ t)) = uvNeeded t
  /\ 0 <= posNeeded t /\ 0 <= uvNeeded t.
Proof.
  unfold fits_DeviceSize, posNeeded, uvNeeded,
    sizeof_DrawIndirectCommand, sizeof_Vec2f.
  intros Hp Hu.
  pose proof (vsize_nonneg (posCache_ t)).
  pose proof (vsize_nonneg (uvCache_ t)).
  rewrite (wrap64_small (8 * vsize (posCache_ t))) by lia.
  rewrite (wrap64_small (16 + _)) by lia.
  rewrite (wrap64_small (8 * vsize (uvCache_ t))) by lia.
  repeat split; lia.
Qed.

(** [Text::updateDevice] leaves everything but the buffers and the
    context as it was. *)
Lemma updateDevice_frame (t : Text F) :
  state_ (updateDevice t).1 = state_ t
  /\ posCache_ (updateDevice t).1 = posCache_ t
  /\ uvCache_ (updateDevice t).1 = uvCache_ t
  /\ disable_ (updateDevice t).1 = disable_ t
  /\ deviceLocal_ (updateDevice t).1 = deviceLocal_ t.
Proof. repeat split. Qed.

(** The result of [Text::updateDevice] buffer by buffer. *)
Lemma updateDevice_buffers (t : Text F) :
  fits_DeviceSize (2 * posNeeded t) ->
  fits_DeviceSize (2 * uvNeeded t) ->
  let growPos := buf_size (posBuf_ t) = 0 \/ buf_size (posBuf_ t) < posNeeded t in
  let growUV := buf_size (uvBuf_ t) = 0 \/ buf_size (uvBuf_ t) < uvNeeded t in
  let fresh needed :=
    Allocate (Z.max (2 * needed) 32) (usageFor (deviceLocal_ t)) 4
      (memBitsFor t) in
  calls (context (updateDevice t).1)
  = calls (context t)
    ++ (if decide growPos then [fresh (posNeeded t)] else [])
    ++ (if decide growUV then [fresh (uvNeeded t)] else [])
  /\ buf_size (posBuf_ (updateDevice t).1)
     = (if decide growPos then Z.max (2 * posNeeded t) 32
        else buf_size (posBuf_ t))
  /\ buf_size (uvBuf_ (updateDevice t).1)
     = (if decide growUV then Z.max (2 * uvNeeded t) 32
        else buf_size (uvBuf_ t))
  /\ (updateDevice t).2 = (bool_decide growPos || bool_decide growUV).
Proof.
  intros Hp Hu growPos growUV fresh.
  destruct (updateDevice_requests t Hp Hu) as (Hrp & Hru & Hp0 & Hu0).
  unfold updateDevice. rewrite Hrp, Hru.
  rewrite (checkResize_cases _ _ _ _ _ Hp0 Hp).
  fold growPos. destruct (decide growPos) as [Hg|Hg]; cbn [fst snd].
  - rewrite (checkResize_cases _ _ _ _ _ Hu0 Hu).
    fold growUV. rewrite (bool_decide_eq_true_2 _ Hg).
    destruct (decide growUV) as [Hg'|Hg'];
      destruct (bool_decide (uvCache_ t = []));
      cbn; rewrite <- ?app_assoc; repeat split; reflexivity.
  - rewrite (checkResize_cases _ _ _ _ _ Hu0 Hu).
    fold growUV. rewrite (bool_decide_eq_false_2 _ Hg).
    destruct (decide growUV) as [Hg'|Hg'];
      [rewrite (bool_decide_eq_true_2 _ Hg')
      |rewrite (bool_decide_eq_false_2 _ Hg')];
      destruct (bool_decide (uvCache_ t = []));
      cbn; rewrite ?app_nil_r; repeat split; reflexivity.
Qed.

(** A sync never makes a buffer smaller, and it gives a released buffer
    twice the requested size, or 32 bytes. *)
Lemma updateDevice_monotone (t : Text F) :
  fits_DeviceSize (2 * posNeeded t) ->
  fits_DeviceSize (2 * uvNeeded t) ->
  buf_size (posBuf_ t) <= buf_size (posBuf_ (updateDevice t).1)
  /\ buf_size (uvBuf_ t) <= buf_size (uvBuf_ (updateDevice t).1).
Proof.
  intros Hp Hu.
  destruct (updateDevice_buffers t Hp Hu) as (_ & -> & -> & _).
  destruct (updateDevice_requests t Hp Hu) as (_ & _ & Hp0 & Hu0).
  split; case_decide; lia.
Qed.

Lemma updateDevice_from_empty (t : Text F) :
  fits_DeviceSize (2 * posNeeded t) ->
  fits_DeviceSize (2 * uvNeeded t) ->
  (buf_size (posBuf_ t) = 0 ->
   buf_size (posBuf_ (updateDevice t).1) = Z.max (2 * posNeeded t) 32)
  /\ (buf_size (uvBuf_ t) = 0 ->
      buf_size (uvBuf_ (updateDevice t).1) = Z.max (2 * uvNeeded t) 32).
Proof.
  intros Hp Hu.
  destruct (updateDevice_buffers t Hp Hu) as (_ & -> & -> & _).
  split; intros Hz; case_decide; tauto.
Qed.

(** [Text::deviceLocal] buffer by buffer: a buffer keeps at least its
    size unless the flag changes and the buffer's memory type does not fit
    the new residency; then it is released and allocated anew. *)
Lemma deviceLocal_buffers (t : Text F) (set : bool) :
  fits_DeviceSize (2 * posNeeded t) ->
  fits_DeviceSize (2 * uvNeeded t) ->
  let needed := if set then deviceMemoryTypes (device (context t))
                else hostMemoryTypes (device (context t)) in
  (buf_size (posBuf_ t) <= buf_size (posBuf_ (deviceLocal t set))
   \/ deviceLocal_ t <> set
      /\ Z.land needed (buf_memType (posBuf_ t)) = 0
      /\ buf_size (posBuf_ (deviceLocal t set))
         = Z.max (2 * posNeeded t) 32)
  /\ (buf_size (uvBuf_ t) <= buf_size (uvBuf_ (deviceLocal t set))
      \/ deviceLocal_ t <> set
         /\ Z.land needed (buf_memType (uvBuf_ t)) = 0
         /\ buf_size (uvBuf_ (deviceLocal t set))
            = Z.max (2 * uvNeeded t) 32).
Proof.
  intros Hp Hu needed. unfold deviceLocal.
  destruct (Bool.eqb (deviceLocal_ t) set) eqn:Hflag; cbn [negb];
    [split; left; lia|].
  assert (Hne : deviceLocal_ t <> set).
  { intros Heq. apply Bool.eqb_false_iff in Hflag. contradiction. }
  cbn [with_deviceLocal posBuf_ uvBuf_ deviceLocal_ context].
  destruct (buf_size (posBuf_ t) =? 0); cbn [negb];
    [split; left; cbn; lia|].
  fold needed.
  set (t2 := with_bufs _ _ _).
  assert (Hp2 : fits_DeviceSize (2 * posNeeded t2)) by exact Hp.
  assert (Hu2 : fits_DeviceSize (2 * uvNeeded t2)) by exact Hu.
  destruct (updateDevice_monotone t2 Hp2 Hu2) as [Hmp Hmu].
  destruct (updateDevice_from_empty t2 Hp2 Hu2) as [Hep Heu].
  change (posNeeded t2) with (posNeeded t) in Hep.
  change (uvNeeded t2) with (uvNeeded t) in Heu.
  destruct (Z.eqb_spec (Z.land needed (buf_memType (posBuf_ t))) 0)
    as [Hdp|Hdp];
    destruct (Z.eqb_spec (Z.land needed (buf_memType (uvBuf_ t))) 0)
      as [Hdu|Hdu];
    cbn [orb with_context posBuf_ uvBuf_];
    subst t2; cbn [with_bufs posBuf_ uvBuf_] in *.
  - split; right; auto.
  - split; [right; auto | left; exact Hmu].
  - split; [left; exact Hmp | right; auto].
  - split; left; lia.
Qed.

Lemma rebind_buffers `{Scalar F} (t : Text F) :
  posBuf_ (rebind t) = posBuf_ t /\ uvBuf_ (rebind t) = uvBuf_ t.
Proof. unfold rebind. by destruct (Nat.eqb _ _). Qed.

End DeviceFacts.

(** C3.  In every device sync whose doubled requests fit a
    [vk::DeviceSize], a buffer is allocated anew exactly when it is
    unallocated or smaller than required, where the position buffer
    requires one draw command plus the position cache and the UV buffer the
    UV cache; the new buffer has [max(2 * required, 32)] bytes, the other
    keeps its size; and [updateDevice] returns [true] exactly when one of
    the two was allocated anew. *)
Theorem updateDevice_growth {F} (t : Text F) :
  fits_DeviceSize (2 * posNeeded t) ->
  fits_DeviceSize (2 * uvNeeded t) ->
  let growPos := buf_size (posBuf_ t) = 0 \/ buf_size (posBuf_ t) < posNeeded t in
  let growUV := buf_size (uvBuf_ t) = 0 \/ buf_size (uvBuf_ t) < uvNeeded t in
  let fresh needed :=
    Allocate (Z.max (2 * needed) 32) (usageFor (deviceLocal_ t)) 4
      (memBitsFor t) in
  posNeeded t = sizeof_DrawIndirectCommand + sizeof_Vec2f * vsize (posCache_ t)
  /\ uvNeeded t = sizeof_Vec2f * vsize (uvCache_ t)
  /\ calls (context (updateDevice t).1)
     = calls (context t)
       ++ (if decide growPos then [fresh (posNeeded t)] else [])
       ++ (if decide growUV then [fresh (uvNeeded t)] else [])
  /\ buf_size (posBuf_ (updateDevice t).1)
     = (if decide growPos then Z.max (2 * posNeeded t) 32
        else buf_size (posBuf_ t))
  /\ buf_size (uvBuf_ (updateDevice t).1)
     = (if decide growUV then Z.max (2 * uvNeeded t) 32
        else buf_size (uvBuf_ t))
  /\ ((updateDevice t).2 = true <-> growPos \/ growUV).
Proof.
  intros Hp Hu growPos growUV fresh.
  destruct (updateDevice_buffers t Hp Hu) as (Hc & Hbp & Hbu & Hr).
  split; [reflexivity|]. split; [reflexivity|].
  split; [exact Hc|]. split; [exact Hbp|]. split; [exact Hbu|].
  rewrite Hr, orb_true_iff, !bool_decide_eq_true. reflexivity.
Qed.

Lemma updateDevice_growth_witness :
  calls (context (updateDevice Sample.textCut).1)
    = calls (context Sample.textCut)
  /\ buf_size (posBuf_ (updateDevice Sample.textCut).1) = 416
  /\ (updateDevice (with_bufs Sample.textCut SubBuffer_empty
                      (uvBuf_ Sample.textCut))).2 = true.
Proof.
  split; [|split].
  - destruct (updateDevice_growth Sample.textCut eq_refl eq_refl)
      as (_ & _ & Hc & _).
    rewrite Hc. vm_compute. reflexivity.
  - destruct (updateDevice_growth Sample.textCut eq_refl eq_refl)
      as (_ & _ & _ & Hb & _).
    rewrite Hb. vm_compute. reflexivity.
  - apply (updateDevice_growth
             (with_bufs Sample.textCut SubBuffer_empty
                (uvBuf_ Sample.textCut)) eq_refl eq_refl).
    left. left. reflexivity.
Defined.

(** C4 (as stated) fails.  The text "AAAA", created device-local and then
    cut down to "A", holds a position buffer of 416 bytes and a UV buffer of
    384 bytes; [deviceLocal(false)] releases both, since their memory type
    does not fit host memory, and the sync it runs allocates 128 and 96
    bytes. *)
Lemma deviceLocal_shrinks_buffers :
  buf_size (posBuf_ Sample.textCut) = 416
  /\ buf_size (uvBuf_ Sample.textCut) = 384
  /\ buf_size (posBuf_ (deviceLocal Sample.textCut false)) = 128
  /\ buf_size (uvBuf_ (deviceLocal Sample.textCut false)) = 96
  /\ ~ (buf_size (posBuf_ Sample.textCut)
        <= buf_size (posBuf_ (deviceLocal Sample.textCut false))).
Proof.
  repeat (split; [vm_compute; reflexivity|]).
  vm_compute. intros Hle. apply Hle. reflexivity.
Qed.

(** C4 (as amended).  A device sync never makes a buffer smaller; a
    rebuild that is not cut short and [disable] leave both buffers as they
    are; [deviceLocal] leaves both buffers as they are when it does not
    change the flag or the position buffer is not allocated.  When it
    changes the flag of an object whose position buffer is allocated it may
    release a buffer, which the sync it runs then allocates anew with
    [max(2 * required, 32)] bytes, possibly fewer than before; a buffer it
    does not release is not made smaller. *)
Theorem capacity_shrinks_only_on_residency_change {F} `{Scalar F}
    (ensureBaked : Text F -> Text F) (t : Text F) :
  fits_DeviceSize (2 * posNeeded t) ->
  fits_DeviceSize (2 * uvNeeded t) ->
  (buf_size (posBuf_ t) <= buf_size (posBuf_ (updateDevice t).1)
   /\ buf_size (uvBuf_ t) <= buf_size (uvBuf_ (updateDevice t).1))
  /\ (ensureRange (font (state_ t)) (utf32 (state_ t)) = false ->
      posBuf_ (update ensureBaked t) = posBuf_ t
      /\ uvBuf_ (update ensureBaked t) = uvBuf_ t)
  /\ (forall b : bool, posBuf_ (disable t b).1 = posBuf_ t
                /\ uvBuf_ (disable t b).1 = uvBuf_ t)
  /\ (forall set : bool,
        (deviceLocal_ t = set \/ buf_size (posBuf_ t) = 0 ->
         posBuf_ (deviceLocal t set) = posBuf_ t
         /\ uvBuf_ (deviceLocal t set) = uvBuf_ t)
        /\ (buf_size (posBuf_ t) <= buf_size (posBuf_ (deviceLocal t set))
            \/ deviceLocal_ t <> set
               /\ buf_size (posBuf_ t) <> 0
               /\ buf_size (posBuf_ (deviceLocal t set))
                  = Z.max (2 * posNeeded t) 32)
        /\ (buf_size (uvBuf_ t) <= buf_size (uvBuf_ (deviceLocal t set))
            \/ deviceLocal_ t <> set
               /\ buf_size (posBuf_ t) <> 0
               /\ buf_size (uvBuf_ (deviceLocal t set))
                  = Z.max (2 * uvNeeded t) 32)).
Proof.
  intros Hp Hu.
  split; [exact (updateDevice_monotone t Hp Hu)|].
  split; [|split].
  - intros Hr. unfold update. rewrite rebind_state, Hr. cbn.
    apply rebind_buffers.
  - intros b. split; reflexivity.
  - intros set.
    assert (Hkeep : deviceLocal_ t = set \/ buf_size (posBuf_ t) = 0 ->
                    posBuf_ (deviceLocal t set) = posBuf_ t
                    /\ uvBuf_ (deviceLocal t set) = uvBuf_ t).
    { intros Hcase. unfold deviceLocal.
      destruct (Bool.eqb (deviceLocal_ t) set) eqn:Hflag; cbn [negb];
        [by split|].
      destruct Hcase as [Hsame|Hzero].
      - apply Bool.eqb_false_iff in Hflag. contradiction.
      - cbn [with_deviceLocal posBuf_]. rewrite Hzero. by split. }
    split; [exact Hkeep|].
    destruct (decide (buf_size (posBuf_ t) = 0)) as [Hz|Hnz].
    { destruct (Hkeep (or_intror Hz)) as [-> ->]. split; left; lia. }
    destruct (deviceLocal_buffers t set Hp Hu) as [Hpos Huv].
    split.
    + destruct Hpos as [Hle | (Hne & _ & Heq)]; [by left | by right].
    + destruct Huv as [Hle | (Hne & _ & Heq)]; [by left | by right].
Qed.

Lemma capacity_shrinks_only_on_residency_change_witness :
  buf_size (posBuf_ Sample.textCut)
    <= buf_size (posBuf_ (updateDevice Sample.textCut).1)
  /\ posBuf_ (deviceLocal Sample.textCut true) = posBuf_ Sample.textCut
  /\ buf_size (posBuf_ (deviceLocal Sample.textCut false))
     = Z.max (2 * posNeeded Sample.textCut) 32.
Proof.
  destruct (capacity_shrinks_only_on_residency_change id Sample.textCut
              eq_refl eq_refl) as ([Hm _] & _ & _ & Hd).
  split; [exact Hm|]. split.
  - destruct (Hd true) as (Hkeep & _).
    destruct (Hkeep (or_introl eq_refl)) as [Hk _]. exact Hk.
  - destruct (Hd false) as (_ & [Hle | (_ & _ & Heq)] & _); [|exact Heq].
    vm_compute in Hle. exfalso. apply Hle. reflexivity.
Defined.

(** C5.  When the caches are in step with the text and the vertex count
    fits an [unsigned], a device sync writes to the head of the position
    buffer a draw command with [vertexCount = 6 * characters] if the object
    is not disabled and 0 if it is, and [instanceCount = 1]; and setting the
    flag with [disable] and syncing leaves both caches as they were. *)
Theorem updateDevice_descriptor {F} (t : Text F) :
  caches_in_step t ->
  fits_unsigned (6 * vsize (utf32 (state_ t))) ->
  (exists cmd,
     descriptor (posBuf_ (updateDevice t).1) = Some cmd
     /\ vertexCount cmd
        = (if disable_ t then 0 else 6 * vsize (utf32 (state_ t)))
     /\ instanceCount cmd = 1)
  /\ (forall b : bool,
        let t' := (updateDevice (disable t b).1).1 in
        posCache_ t' = posCache_ t
        /\ uvCache_ t' = uvCache_ t
        /\ exists cmd,
             descriptor (posBuf_ t') = Some cmd
             /\ vertexCount cmd
                = (if b then 0 else 6 * vsize (utf32 (state_ t)))
             /\ instanceCount cmd = 1).
Proof.
  intros [Hstep _] Hfit. unfold fits_unsigned in Hfit.
  pose proof (vsize_nonneg (utf32 (state_ t))) as Hn.
  assert (Hcount : forall d : bool,
            wrap32 (wrap64 ((if d then 0 else 1) * vsize (posCache_ t)))
            = (if d then 0 else 6 * vsize (utf32 (state_ t)))).
  { intros [|]; [reflexivity|].
    rewrite Hstep, wrap64_small, wrap32_small; lia. }
  split.
  - eexists. split; [reflexivity|]. split; [apply Hcount | reflexivity].
  - intros b t'. split; [reflexivity|]. split; [reflexivity|].
    eexists. split; [reflexivity|]. split; [apply Hcount | reflexivity].
Qed.

Lemma updateDevice_descriptor_witness :
  caches_in_step Sample.textCB
  /\ exists cmd,
       descriptor (posBuf_ (updateDevice (disable Sample.textCB true).1).1)
       = Some cmd
       /\ vertexCount cmd = 0 /\ instanceCount cmd = 1.
Proof.
  split; [split; reflexivity|].
  destruct (updateDevice_descriptor Sample.textCB
              ltac:(split; reflexivity) eq_refl) as [_ Hd].
  destruct (Hd true) as (_ & _ & cmd & Hc & Hv & Hi).
  exists cmd. split; [exact Hc|]. split; [exact Hv | exact Hi].
Defined.

(** * Further properties *)

(** ** The rebuild *)

Section RebuildFacts.
Context {F : Type} `{Scalar F}.

Lemma layoutPos_app (fnt : Font F) position text more : forall x,
  layoutPos fnt position x (text ++ more)
  = layoutPos fnt position x text
    ++ layoutPos fnt position (cursor fnt x text) more.
Proof.
  induction text as [|c text IH]; intros x; [reflexivity|].
  cbn [app layoutPos cursor fold_left]. rewrite IH.
  by rewrite <- app_assoc.
Qed.

Lemma layoutUV_app (fnt : Font F) text more :
  layoutUV fnt (text ++ more) = layoutUV fnt text ++ layoutUV fnt more.
Proof.
  induction text as [|c text IH]; [reflexivity|].
  cbn [app layoutUV]. rewrite IH. by rewrite <- app_assoc.
Qed.

Lemma registered_snoc (l : list Event) (e : Event) :
  registered (l ++ [e]) = registered_step (registered l) e.
Proof. unfold registered. by rewrite fold_left_app. Qed.

Lemma allocations_snoc (l : list Event) (e : Event) :
  allocations (l ++ [e]) = allocations l ++ allocations [e].
Proof. unfold allocations. apply List.filter_app. Qed.

(** The calls a rebuild that is not cut short makes. *)
Lemma update_calls ensureBaked (t : Text F) :
  ensureRange (font (state_ t)) (utf32 (state_ t)) = false ->
  calls (context (update ensureBaked t))
  = calls (context t)
    ++ (if Nat.eqb (atlas (font (state_ t))) (oldAtlas_ t) then []
        else [Rerecord; AtlasRemoved (oldAtlas_ t);
              AtlasAdded (atlas (font (state_ t)))])
    ++ [RegisterUpdateDevice]
  /\ oldAtlas_ (update ensureBaked t) = atlas (font (state_ t)).
Proof.
  intros Hr. unfold update. rewrite rebind_state, Hr.
  cbn [context oldAtlas_ call calls]. unfold rebind.
  destruct (Nat.eqb (atlas (font (state_ t))) (oldAtlas_ t)) eqn:Ha.
  - apply Nat.eqb_eq in Ha. by rewrite Ha.
  - cbn. by rewrite <- !app_assoc.
Qed.

End RebuildFacts.

(** X1.  The caches a rebuild leaves depend on the text, the font and the
    position only: two objects with the same [state_] get the same caches
    whatever their caches, flags, buffers and atlas bake were, and a second
    rebuild changes nothing. *)
Theorem update_depends_on_state_only {F} `{Scalar F}
    (bake bake' : Text F -> Text F) (t t' : Text F) :
  state_ t = state_ t' ->
  ensureRange (font (state_ t)) (utf32 (state_ t)) = false ->
  posCache_ (update bake t) = posCache_ (update bake' t')
  /\ uvCache_ (update bake t) = uvCache_ (update bake' t')
  /\ posCache_ (update bake (update bake t)) = posCache_ (update bake t)
  /\ uvCache_ (update bake (update bake t)) = uvCache_ (update bake t).
Proof.
  intros Hs Hr.
  assert (Hr' : ensureRange (font (state_ t')) (utf32 (state_ t')) = false)
    by by rewrite <- Hs.
  assert (Hr2 : ensureRange (font (state_ (update bake t)))
                  (utf32 (state_ (update bake t))) = false)
    by by rewrite (update_state bake t Hr).
  destruct (update_caches bake t Hr) as [Hp Hu].
  destruct (update_caches bake' t' Hr') as [Hp' Hu'].
  destruct (update_caches bake (update bake t) Hr2) as [Hp2 Hu2].
  rewrite (update_state bake t Hr) in Hp2, Hu2.
  rewrite Hp2, Hu2, Hp, Hu, Hp', Hu', Hs. done.
Qed.

Lemma update_depends_on_state_only_witness :
  state_ (with_font Sample.textStale Sample.fontCovered)
    = state_ (with_utf32 Sample.textA [65; 66])
  /\ posCache_ (update id (with_font Sample.textStale Sample.fontCovered))
     = posCache_ (update id (with_utf32 Sample.textA [65; 66])).
Proof.
  split; [reflexivity|].
  destruct (update_depends_on_state_only id id
              (with_font Sample.textStale Sample.fontCovered)
              (with_utf32 Sample.textA [65; 66]) eq_refl eq_refl)
    as [Hp _].
  exact Hp.
Defined.

(** X2.  Appending characters to the text keeps the vertices of the
    characters already there: the rebuilt position cache starts with the
    old one and gains six entries per new character, and the rebuilt UV
    cache is the old one followed by the UV cache of the new characters
    alone. *)
Theorem update_append_keeps_prefix {F} `{Scalar F}
    (bake : Text F -> Text F) (t : Text F) (more : list Z) :
  let fnt := font (state_ t) in
  let text := utf32 (state_ t) in
  ensureRange fnt text = false ->
  ensureRange fnt (text ++ more) = false ->
  ensureRange fnt more = false ->
  let t2 := update bake (with_utf32 t (text ++ more)) in
  (exists tail,
     posCache_ t2 = posCache_ (update bake t) ++ tail
     /\ vsize tail = 6 * vsize more)
  /\ uvCache_ t2
     = uvCache_ (update bake t) ++ uvCache_ (update bake (with_utf32 t more)).
Proof.
  intros fnt text Hr Hr2 Hrm t2.
  destruct (update_caches bake t Hr) as [Hp Hu].
  destruct (update_caches bake (with_utf32 t (text ++ more)) Hr2)
    as [Hp2 Hu2].
  destruct (update_caches bake (with_utf32 t more) Hrm) as [_ Hum].
  cbn [with_utf32 state_ utf32 font position] in Hp2, Hu2, Hum.
  subst t2. rewrite Hp2, Hu2, Hp, Hu, Hum.
  fold fnt text. rewrite layoutPos_app, layoutUV_app.
  split; [|reflexivity].
  eexists. split; [reflexivity|].
  unfold vsize. rewrite length_layoutPos. lia.
Qed.

Lemma update_append_keeps_prefix_witness :
  exists tail,
    posCache_ (update id (with_utf32 Sample.textA ([65] ++ [66; 67])))
    = posCache_ (update id Sample.textA) ++ tail
    /\ vsize tail = 12.
Proof.
  destruct (update_append_keeps_prefix id Sample.textA [66; 67]
              eq_refl eq_refl eq_refl) as [(tail & Hp & Hl) _].
  exists tail. split; [exact Hp | exact Hl].
Defined.

Section PositionFacts.
Context {F : Type} `{Scalar F}.

(** The x coordinates of a layout do not involve the position, and its y
    coordinates involve neither the cursor nor the x of the position. *)
Lemma layoutPos_x (fnt : Font F) (p p' : Vec2f F) (text : list Z) :
  forall x : F,
  Vec2.x <$> layoutPos fnt p x text = Vec2.x <$> layoutPos fnt p' x text.
Proof.
  induction text as [|c text IH]; intros x; [reflexivity|].
  cbn [layoutPos]. rewrite !fmap_app, (IH (x ⊕ xadvance (glyph fnt c))).
  reflexivity.
Qed.

Lemma layoutPos_y (fnt : Font F) (p p' : Vec2f F) (text : list Z) :
  Vec2.y p' = Vec2.y p ->
  forall x x' : F,
  Vec2.y <$> layoutPos fnt p x text = Vec2.y <$> layoutPos fnt p' x' text.
Proof.
  intros Hy. induction text as [|c text IH]; intros x x'; [reflexivity|].
  cbn [layoutPos].
  rewrite !fmap_app,
    (IH (x ⊕ xadvance (glyph fnt c)) (x' ⊕ xadvance (glyph fnt c))).
  f_equal. unfold quadPos, top_right, top_left, bottom_right, bottom_left.
  cbn. by rewrite Hy.
Qed.

End PositionFacts.

(** X3.  The UV cache a rebuild leaves does not depend on the position;
    the x coordinates of the cached vertices depend on [position.x] only and
    their y coordinates on [position.y] only: moving the text vertically
    keeps every x, moving it horizontally keeps every y. *)
Theorem update_position_separates {F} `{Scalar F}
    (bake : Text F -> Text F) (t : Text F) (p' : Vec2f F) :
  ensureRange (font (state_ t)) (utf32 (state_ t)) = false ->
  let p := position (state_ t) in
  let t' := with_position t p' in
  uvCache_ (update bake t') = uvCache_ (update bake t)
  /\ (Vec2.x p' = Vec2.x p ->
      Vec2.x <$> posCache_ (update bake t')
      = Vec2.x <$> posCache_ (update bake t))
  /\ (Vec2.y p' = Vec2.y p ->
      Vec2.y <$> posCache_ (update bake t')
      = Vec2.y <$> posCache_ (update bake t)).
Proof.
  intros Hr p t'.
  destruct (update_caches bake t Hr) as [-> ->].
  destruct (update_caches bake t' Hr) as [-> ->].
  subst t' p. cbn [with_position state_ utf32 font position].
  split; [reflexivity|]. split.
  - intros ->. apply layoutPos_x.
  - intros Hy. by apply layoutPos_y.
Qed.

Lemma update_position_separates_witness :
  Vec2.x <$> posCache_ (update id (with_position Sample.textA
                                     (Vec2.mk (Sample.f32 5) (Sample.f32 9))))
  = Vec2.x <$> posCache_ (update id Sample.textA).
Proof.
  destruct (update_position_separates id Sample.textA
              (Vec2.mk (Sample.f32 5) (Sample.f32 9)) eq_refl)
    as (_ & Hx & _).
  apply Hx. reflexivity.
Defined.

(** X4.  A text registered with the atlas in [oldAtlas_] only stays
    registered with exactly one atlas through a font change and the
    rebuild that follows: afterwards it is registered with the new font's
    atlas only, [oldAtlas_] names that atlas, and destroying the object
    leaves it registered nowhere. *)
Theorem registered_follows_font {F} `{Scalar F}
    (bake : Text F -> Text F) (t : Text F) (f : Font F) :
  registered (calls (context t)) = [oldAtlas_ t] ->
  ensureRange f (utf32 (state_ t)) = false ->
  let t' := update bake (with_font t f) in
  registered (calls (context t')) = [atlas f]
  /\ oldAtlas_ t' = atlas f
  /\ registered (calls (Text_delete t')) = [].
Proof.
  intros Hreg Hr t'.
  destruct (update_calls bake (with_font t f) Hr) as [Hc Ho].
  cbn [with_font state_ font context oldAtlas_] in Hc, Ho.
  assert (Hreg' : registered (calls (context t')) = [atlas f]).
  { subst t'. rewrite Hc.
    destruct (Nat.eqb (atlas f) (oldAtlas_ t)) eqn:Ha.
    - apply Nat.eqb_eq in Ha. cbn [app].
      rewrite registered_snoc, Hreg, Ha. reflexivity.
    - rewrite !app_assoc, registered_snoc.
      change [Rerecord; AtlasRemoved (oldAtlas_ t); AtlasAdded (atlas f)]
        with ([Rerecord; AtlasRemoved (oldAtlas_ t)]
              ++ [AtlasAdded (atlas f)]).
      rewrite !app_assoc, registered_snoc.
      change [Rerecord; AtlasRemoved (oldAtlas_ t)]
        with ([Rerecord] ++ [AtlasRemoved (oldAtlas_ t)]).
      rewrite !app_assoc, !registered_snoc, Hreg.
      cbn. by rewrite Nat.eqb_refl. }
  split; [exact Hreg'|]. split; [exact Ho|].
  unfold Text_delete. cbn [call calls].
  rewrite registered_snoc, Hreg'.
  assert (Hs : state_ t' = state_ (with_font t f))
    by exact (update_state bake (with_font t f) Hr).
  rewrite Hs. cbn. by rewrite Nat.eqb_refl.
Qed.

Lemma registered_follows_font_witness :
  registered (calls (context Sample.textA)) = [oldAtlas_ Sample.textA]
  /\ registered
       (calls (context (update id
                          (with_font Sample.textA Example.fontOther))))
     = [1%nat]
  /\ registered
       (calls (Text_delete
                 (update id (with_font Sample.textA Example.fontOther))))
     = [].
Proof.
  split; [reflexivity|].
  destruct (registered_follows_font id Sample.textA Example.fontOther
              eq_refl eq_refl) as (Hr & _ & Hd).
  split; [exact Hr | exact Hd].
Defined.

(** X17.  A rebuild that is not cut short allocates nothing and leaves the
    buffers and both flags alone.  It asks for re-recording, and moves the
    registration, exactly when the font's atlas is not the one in
    [oldAtlas_]; its last call always asks for a device update. *)
Theorem update_effects {F} `{Scalar F} (bake : Text F -> Text F)
    (t : Text F) :
  ensureRange (font (state_ t)) (utf32 (state_ t)) = false ->
  let a := atlas (font (state_ t)) in
  calls (context (update bake t))
  = calls (context t)
    ++ (if Nat.eqb a (oldAtlas_ t) then []
        else [Rerecord; AtlasRemoved (oldAtlas_ t); AtlasAdded a])
    ++ [RegisterUpdateDevice]
  /\ posBuf_ (update bake t) = posBuf_ t
  /\ uvBuf_ (update bake t) = uvBuf_ t
  /\ deviceLocal_ (update bake t) = deviceLocal_ t
  /\ disable_ (update bake t) = disable_ t.
Proof.
  intros Hr a.
  destruct (update_calls bake t Hr) as [Hc _].
  split; [exact Hc|].
  unfold update. rewrite rebind_state, Hr.
  cbn [posBuf_ uvBuf_ deviceLocal_ disable_].
  unfold rebind. by destruct (Nat.eqb _ _).
Qed.

Lemma update_effects_witness :
  calls (context (update id (with_font Sample.textA Example.fontOther)))
  = calls (context Sample.textA)
    ++ [Rerecord; AtlasRemoved 0; AtlasAdded 1; RegisterUpdateDevice].
Proof.
  destruct (update_effects id (with_font Sample.textA Example.fontOther)
              eq_refl) as [Hc _].
  rewrite Hc. reflexivity.
Defined.

(** ** The queries on rebuilt texts and in binary32 *)

Ltac compare_cases :=
  repeat match goal with
  | H : context [Z.compare ?x ?y] |- _ => destruct (Z.compare_spec x y)
  | |- context [Z.compare ?x ?y] => destruct (Z.compare_spec x y)
  | H : context [Pos.compare ?x ?y] |- _ => destruct (Pos.compare_spec x y)
  | |- context [Pos.compare ?x ?y] => destruct (Pos.compare_spec x y)
  | H : context [Pos.compare_cont _ ?x ?y] |- _ =>
      change (Pos.compare_cont Eq x y) with (Pos.compare x y) in H
  | |- context [Pos.compare_cont _ ?x ?y] =>
      change (Pos.compare_cont Eq x y) with (Pos.compare x y)
  end.

(** The comparisons of floats are transitive: [a <= b] and [b < c] give
    [a < c], for zeros, infinities and finite numbers of either sign; a NaN
    compares false with everything. *)
Lemma SFleb_SFltb_trans (a b c : spec_float) :
  SFleb a b = true -> SFltb b c = true -> SFltb a c = true.
Proof.
  unfold SFleb, SFltb, SFcompare.
  destruct a as [sa|sa| |sa ma ea], b as [sb|sb| |sb mb eb],
    c as [sc|sc| |sc mc ec];
    repeat match goal with s : bool |- _ => destruct s end;
    cbn; try discriminate; try reflexivity;
    compare_cases; cbn; subst; try discriminate; try reflexivity; try lia.
Qed.

(** X5.  In binary32, [charAt] is monotone in the query it compares with,
    [x + position.x] computed in float arithmetic: on every cache of whole
    quads, if [xa + position.x <= xb + position.x] then
    [charAt(xa) <= charAt(xb)]. *)
Theorem charAt_monotone (t : Text binary32) (xa xb : binary32)
    (fuel : nat) :
  whole_quads t ->
  fits_unsigned (vsize (posCache_ t)) ->
  vsize (posCache_ t) / 6 < Z.of_nat fuel ->
  SFleb (xa ⊕ Vec2.x (position (state_ t)))
        (xb ⊕ Vec2.x (position (state_ t))) = true ->
  exists ra rb,
    charAt fuel t xa = Ret ra /\ charAt fuel t xb = Ret rb /\ ra <= rb.
Proof.
  intros Hw Hfit Hfuel Hx.
  destruct (whole_quads_length t Hw) as (n & Hlen & Hdiv).
  unfold fits_unsigned, vsize in *. rewrite Hdiv in Hfuel.
  set (px := Vec2.x (position (state_ t))) in *.
  destruct (charAt_loop_scan (posCache_ t) (xa ⊕ px) n Hlen ltac:(lia)
              fuel 0%nat ltac:(lia) ltac:(lia))
    as (ra & Hra & Hna & Hbefore & _).
  destruct (charAt_loop_scan (posCache_ t) (xb ⊕ px) n Hlen ltac:(lia)
              fuel 0%nat ltac:(lia) ltac:(lia))
    as (rb & Hrb & Hnb & _ & Hat).
  exists (Z.of_nat ra), (Z.of_nat rb).
  split; [exact Hra|]. split; [exact Hrb|].
  destruct (decide (ra <= rb)%nat) as [|Hlt]; [lia|]. exfalso.
  destruct Hat as (v & Hv & Hhit); [lia|].
  destruct (Hbefore rb ltac:(lia)) as (v' & Hv' & Hmiss).
  rewrite Hv in Hv'. injection Hv' as <-.
  pose proof (SFleb_SFltb_trans _ _ _ Hx Hhit) as Hc.
  change (fltb (xa ⊕ px) (Vec2.x v)) with (SFltb (xa ⊕ px) (Vec2.x v))
    in Hmiss.
  rewrite Hc in Hmiss. discriminate Hmiss.
Qed.

Lemma charAt_monotone_witness :
  exists ra rb,
    charAt 4 Example.textABA (Sample.f32 3) = Ret ra
    /\ charAt 4 Example.textABA (Sample.f32 14) = Ret rb
    /\ ra <= rb.
Proof.
  apply (charAt_monotone Example.textABA (Sample.f32 3) (Sample.f32 14) 4);
    vm_compute; reflexivity.
Defined.

(** X6.  On a rebuilt text, [ithBounds] returns for every character [j]
    whose glyph is found the rectangle that starts at
    [((cursor + x0) - position.x, (position.y + y0) - position.y)], where
    the cursor is [position.x] plus the advances of the characters before
    [j], added one by one; it is as wide as the advance found by the second
    lookup and as high as [(position.y + y1) - (position.y + y0)].  Every
    operation is the scalar type's, so this is what the float program
    computes. *)
Theorem ithBounds_of_rebuilt {F} `{Scalar F} (bake : Text F -> Text F)
    (t : Text F) (j : nat) (c : Z) (pglyph : nk_font_glyph F) :
  let fnt := font (state_ t) in
  let p := position (state_ t) in
  ensureRange fnt (utf32 (state_ t)) = false ->
  fits_unsigned (6 * vsize (utf32 (state_ t))) ->
  utf32 (state_ t) !! j = Some c ->
  nk_font_find_glyph (nkFont fnt) c = Some pglyph ->
  let cx := cursor fnt (Vec2.x p) (take j (utf32 (state_ t))) in
  ithBounds (update bake t) (Z.of_nat j)
  = Ret (Rect2.mk
           (Vec2.mk (cx ⊕ x0 (glyph fnt c) ⊖ Vec2.x p)
                    (Vec2.y p ⊕ y0 (glyph fnt c) ⊖ Vec2.y p))
           (Vec2.mk (xadvance pglyph)
                    (Vec2.y p ⊕ y1 (glyph fnt c)
                     ⊖ (Vec2.y p ⊕ y0 (glyph fnt c))))).
Proof.
  intros fnt p Hr Hfit Hj Hg cx.
  exact (ithBounds_after_update bake t j c pglyph Hr Hfit Hj Hg).
Qed.

Lemma ithBounds_of_rebuilt_witness :
  ithBounds (update id Example.textABA) 1
  = Ret (Rect2.mk (Vec2.mk (Sample.f32 12) (Sample.f32 0))
           (Vec2.mk (Sample.f32 10) (Sample.f32 20))).
Proof.
  rewrite (ithBounds_of_rebuilt id Example.textABA 1 66 (Sample.table 66)
             eq_refl eq_refl eq_refl eq_refl).
  vm_compute. reflexivity.
Defined.

(** ** The width *)

(** X8.  On a rebuilt text with at least one character whose first and
    last glyphs are found, [width] returns, without throwing, the left edge
    of the last rectangle plus the last advance minus the left edge of the
    first rectangle:
    [(((cursor + x0_last) - position.x) + advance_last)
     - ((position.x + x0_first) - position.x)],
    where the cursor is [position.x] plus the advances of all characters
    but the last, added one by one in the scalar type's arithmetic. *)
Theorem width_of_rebuilt {F} `{Scalar F} `{ScalarZero F}
    (bake : Text F -> Text F) (t : Text F) (first last : Z)
    (pfirst plast : nk_font_glyph F) :
  let fnt := font (state_ t) in
  let text := utf32 (state_ t) in
  let px := Vec2.x (position (state_ t)) in
  ensureRange fnt text = false ->
  fits_unsigned (6 * vsize text) ->
  text !! 0%nat = Some first ->
  text !! (length text - 1)%nat = Some last ->
  nk_font_find_glyph (nkFont fnt) first = Some pfirst ->
  nk_font_find_glyph (nkFont fnt) last = Some plast ->
  width (update bake t)
  = Ret (cursor fnt px (take (length text - 1) text) ⊕ x0 (glyph fnt last)
         ⊖ px ⊕ xadvance plast
         ⊖ (px ⊕ x0 (glyph fnt first) ⊖ px)).
Proof.
  intros fnt text px Hr Hfit Hfirst Hlast Hgf Hgl. subst fnt text px.
  pose proof (lookup_lt_Some _ _ _ Hfirst) as Hlen.
  pose proof (ithBounds_after_update bake t 0 first _ Hr Hfit Hfirst Hgf)
    as Bf.
  pose proof (ithBounds_after_update bake t _ last _ Hr Hfit Hlast Hgl)
    as Bl.
  cbv zeta in Bf, Bl.
  unfold width. rewrite (update_state bake t Hr).
  rewrite bool_decide_eq_false_2
    by (intros Hnil; rewrite Hnil in Hfirst; discriminate Hfirst).
  change (Z.of_nat 0) with 0 in Bf. rewrite Bf.
  unfold fits_unsigned, vsize in *.
  rewrite wrap64_small, wrap32_small by lia.
  replace (Z.of_nat (length (utf32 (state_ t))) - 1)
    with (Z.of_nat (length (utf32 (state_ t)) - 1)) by lia.
  rewrite Bl. rewrite take_0. reflexivity.
Qed.

Lemma width_of_rebuilt_witness :
  width (update id Example.textABA) = Ret (Sample.f32 34).
Proof.
  rewrite (width_of_rebuilt id Example.textABA 65 65
             (Sample.table 65) (Sample.table 65)
             eq_refl eq_refl eq_refl eq_refl eq_refl eq_refl).
  vm_compute. reflexivity.
Defined.

(** X9.  [width] returns 0 for a text without characters whatever the
    caches hold, and throws [std::out_of_range] for a text with characters
    whose position cache is empty. *)
Theorem width_empty_or_unbuilt {F} `{Scalar F} `{ScalarZero F}
    (t : Text F) :
  (utf32 (state_ t) = [] -> width t = Ret fzero)
  /\ (utf32 (state_ t) <> [] -> posCache_ t = [] ->
      width t = ThrowOutOfRange).
Proof.
  split.
  - intros Hnil. unfold width. by rewrite bool_decide_eq_true_2.
  - intros Hne Hcache. unfold width.
    rewrite bool_decide_eq_false_2 by exact Hne.
    unfold ithBounds. rewrite Hcache. reflexivity.
Qed.

Lemma width_empty_or_unbuilt_witness :
  width Example.textNone = Ret (S754_zero false)
  /\ width Sample.textFresh = ThrowOutOfRange.
Proof.
  split.
  - apply (width_empty_or_unbuilt Example.textNone). reflexivity.
  - apply (width_empty_or_unbuilt Sample.textFresh).
    + intros Hc. discriminate Hc.
    + reflexivity.
Defined.

(** ** Further properties of the device buffers *)

Section SyncFacts.
Context {F : Type}.

(** A sync on buffers that suffice allocates nothing: it uploads and
    returns [false]. *)
Lemma updateDevice_sufficient (t : Text F) :
  fits_DeviceSize (2 * posNeeded t) ->
  fits_DeviceSize (2 * uvNeeded t) ->
  buffers_suffice t ->
  updateDevice t
  = (with_bufs t
       (upload140 (posBuf_ t)
          [RawCmd (drawCommand t); RawSpan (posCache_ t)])
       (upload140 (uvBuf_ t) (uvUpload t)),
     false).
Proof.
  intros Hp Hu (Hp0 & Hpn & Hu0 & Hun).
  destruct (updateDevice_requests t Hp Hu) as (Hrp & Hru & Hpp & Huu).
  unfold updateDevice. rewrite Hrp, Hru.
  rewrite (checkResize_cases _ _ _ _ _ Hpp Hp).
  rewrite decide_False by lia. cbn [fst snd].
  rewrite (checkResize_cases _ _ _ _ _ Huu Hu).
  rewrite decide_False by lia. cbn [fst snd].
  unfold with_bufs, uvUpload, drawCommand.
  by destruct (bool_decide (uvCache_ t = [])).
Qed.

(** After a sync both buffers suffice. *)
Lemma updateDevice_makes_sufficient (t : Text F) :
  fits_DeviceSize (2 * posNeeded t) ->
  fits_DeviceSize (2 * uvNeeded t) ->
  buffers_suffice (updateDevice t).1.
Proof.
  intros Hp Hu.
  destruct (updateDevice_buffers t Hp Hu) as (_ & Hbp & Hbu & _).
  destruct (updateDevice_requests t Hp Hu) as (_ & _ & Hpp & Huu).
  unfold buffers_suffice.
  change (posNeeded (updateDevice t).1) with (posNeeded t).
  change (uvNeeded (updateDevice t).1) with (uvNeeded t).
  rewrite Hbp, Hbu. clear Hbp Hbu.
  repeat split; case_decide; lia.
Qed.

Lemma allocations_app (l k : list Event) :
  allocations (l ++ k) = allocations l ++ allocations k.
Proof. unfold allocations. apply List.filter_app. Qed.

End SyncFacts.

(** X10.  A device sync is idempotent: run again right away it leaves the
    object, its buffers and the context exactly as they are, allocates
    nothing and returns [false]. *)
Theorem updateDevice_twice {F} (t : Text F) :
  fits_DeviceSize (2 * posNeeded t) ->
  fits_DeviceSize (2 * uvNeeded t) ->
  updateDevice (updateDevice t).1 = ((updateDevice t).1, false).
Proof.
  intros Hp Hu.
  rewrite (updateDevice_sufficient (updateDevice t).1 Hp Hu
             (updateDevice_makes_sufficient t Hp Hu)).
  f_equal. unfold updateDevice, with_bufs, uvUpload, drawCommand.
  cbn [fst snd context state_ deviceLocal_ disable_ posCache_ uvCache_
       posBuf_ uvBuf_ oldAtlas_].
  by destruct (bool_decide (uvCache_ t = [])).
Qed.

Lemma updateDevice_twice_witness :
  updateDevice (updateDevice Sample.textCut).1
  = ((updateDevice Sample.textCut).1, false).
Proof.
  apply (updateDevice_twice Sample.textCut); reflexivity.
Defined.

(** X11.  Hiding a synced text and showing it again, with a sync after
    each, brings both buffers back exactly, data included, leaves the
    caches alone and allocates nothing. *)
Theorem hide_show_round_trip {F} (t : Text F) :
  fits_DeviceSize (2 * posNeeded t) ->
  fits_DeviceSize (2 * uvNeeded t) ->
  let t1 := (updateDevice t).1 in
  let t2 := (updateDevice (disable t1 true).1).1 in
  let t3 := (updateDevice (disable t2 (disable_ t)).1).1 in
  posBuf_ t3 = posBuf_ t1
  /\ uvBuf_ t3 = uvBuf_ t1
  /\ posCache_ t3 = posCache_ t
  /\ uvCache_ t3 = uvCache_ t
  /\ disable_ t3 = disable_ t
  /\ allocations (calls (context t3)) = allocations (calls (context t1)).
Proof.
  intros Hp Hu t1 t2 t3.
  pose proof (updateDevice_makes_sufficient t Hp Hu) as Hs1.
  assert (E2 : updateDevice (disable t1 true).1
               = (with_bufs (disable t1 true).1
                    (upload140 (posBuf_ t1)
                       [RawCmd (drawCommand (disable t1 true).1);
                        RawSpan (posCache_ t)])
                    (upload140 (uvBuf_ t1) (uvUpload (disable t1 true).1)),
                  false)).
  { exact (updateDevice_sufficient (disable t1 true).1 Hp Hu Hs1). }
  assert (Hs2 : buffers_suffice (disable t2 (disable_ t)).1).
  { subst t2. rewrite E2. exact Hs1. }
  pose proof (updateDevice_sufficient (disable t2 (disable_ t)).1 Hp Hu Hs2)
    as E3.
  subst t3. rewrite E3. subst t2. rewrite E2.
  cbn [fst snd disable with_bufs context state_ deviceLocal_ disable_
       posCache_ uvCache_ posBuf_ uvBuf_ oldAtlas_ upload140 buf_size
       buf_usage buf_memType buf_data call calls].
  unfold uvUpload, drawCommand.
  cbn [disable_ posCache_ uvCache_].
  subst t1. unfold updateDevice.
  cbn [fst snd context state_ deviceLocal_ disable_ posCache_ uvCache_
       posBuf_ uvBuf_ oldAtlas_ upload140 buf_size buf_usage buf_memType
       buf_data].
  repeat split.
  - by destruct (bool_decide (uvCache_ t = [])).
  - rewrite !allocations_app. cbn. by rewrite !app_nil_r.
Qed.

Lemma hide_show_round_trip_witness :
  posBuf_
    (updateDevice
       (disable (updateDevice (disable (updateDevice Sample.textCB).1
                                 true).1).1
          (disable_ Sample.textCB)).1).1
  = posBuf_ (updateDevice Sample.textCB).1.
Proof.
  apply (hide_show_round_trip Sample.textCB); reflexivity.
Defined.

Section LifecycleFacts.
Context {F : Type} `{Scalar F}.

Lemma update_buffers (bake : Text F -> Text F) (t : Text F) :
  ensureRange (font (state_ t)) (utf32 (state_ t)) = false ->
  posBuf_ (update bake t) = posBuf_ t /\ uvBuf_ (update bake t) = uvBuf_ t.
Proof.
  intros Hr. unfold update. rewrite rebind_state, Hr. cbn.
  apply rebind_buffers.
Qed.

Lemma update_flags (bake : Text F -> Text F) (t : Text F) :
  ensureRange (font (state_ t)) (utf32 (state_ t)) = false ->
  deviceLocal_ (update bake t) = deviceLocal_ t
  /\ disable_ (update bake t) = disable_ t
  /\ device (context (update bake t)) = device (context t).
Proof.
  intros Hr. unfold update. rewrite rebind_state, Hr. cbn.
  unfold rebind. by destruct (Nat.eqb _ _).
Qed.

(** A rebuild that is not cut short allocates nothing. *)
Lemma update_allocations (bake : Text F -> Text F) (t : Text F) :
  ensureRange (font (state_ t)) (utf32 (state_ t)) = false ->
  allocations (calls (context (update bake t)))
  = allocations (calls (context t)).
Proof.
  intros Hr. destruct (update_calls bake t Hr) as [-> _].
  rewrite !allocations_app.
  destruct (Nat.eqb _ _); cbn; by rewrite !app_nil_r.
Qed.

(** The sizes of rebuilt caches. *)
Lemma update_sizes (bake : Text F -> Text F) (t : Text F) :
  ensureRange (font (state_ t)) (utf32 (state_ t)) = false ->
  vsize (posCache_ (update bake t)) = 6 * vsize (utf32 (state_ t))
  /\ vsize (uvCache_ (update bake t)) = 6 * vsize (utf32 (state_ t)).
Proof.
  intros Hr. destruct (update_caches bake t Hr) as [-> ->].
  unfold vsize. rewrite length_layoutPos, length_layoutUV. lia.
Qed.

End LifecycleFacts.

(** X12.  Capacity is kept when the text gets shorter: after a sync,
    replacing the text by one that needs no more vertices than the caches
    held, rebuilding and syncing again allocates nothing, keeps both buffer
    sizes and returns [false]. *)
Theorem shorter_text_keeps_buffers {F} `{Scalar F}
    (bake : Text F -> Text F) (t : Text F) (txt : list Z) :
  fits_DeviceSize (2 * posNeeded t) ->
  fits_DeviceSize (2 * uvNeeded t) ->
  6 * vsize txt <= vsize (posCache_ t) ->
  6 * vsize txt <= vsize (uvCache_ t) ->
  ensureRange (font (state_ t)) txt = false ->
  let t1 := (updateDevice t).1 in
  let t2 := update bake (with_utf32 t1 txt) in
  (updateDevice t2).2 = false
  /\ buf_size (posBuf_ (updateDevice t2).1) = buf_size (posBuf_ t1)
  /\ buf_size (uvBuf_ (updateDevice t2).1) = buf_size (uvBuf_ t1)
  /\ allocations (calls (context (updateDevice t2).1))
     = allocations (calls (context t1)).
Proof.
  intros Hp Hu Hlp Hlu Hr t1 t2.
  assert (Hr1 : ensureRange (font (state_ (with_utf32 t1 txt)))
                  (utf32 (state_ (with_utf32 t1 txt))) = false) by exact Hr.
  destruct (update_buffers bake _ Hr1) as [Hbp Hbu].
  destruct (update_sizes bake _ Hr1) as [Hsp Hsu].
  pose proof (update_allocations bake _ Hr1) as Hal.
  fold t2 in Hbp, Hbu, Hsp, Hsu, Hal.
  cbn [with_utf32 posBuf_ uvBuf_ state_ utf32 context] in Hbp, Hbu, Hsp, Hsu, Hal.
  destruct (updateDevice_makes_sufficient t Hp Hu) as (S1 & S2 & S3 & S4).
  fold t1 in S1, S2, S3, S4.
  change (posNeeded t1) with (posNeeded t) in S2.
  change (uvNeeded t1) with (uvNeeded t) in S4.
  unfold fits_DeviceSize, posNeeded, uvNeeded, sizeof_Vec2f,
    sizeof_DrawIndirectCommand in *.
  assert (Hp2 : fits_DeviceSize (2 * posNeeded t2)).
  { unfold fits_DeviceSize, posNeeded, sizeof_Vec2f,
      sizeof_DrawIndirectCommand. lia. }
  assert (Hu2 : fits_DeviceSize (2 * uvNeeded t2)).
  { unfold fits_DeviceSize, uvNeeded, sizeof_Vec2f. lia. }
  assert (Hs2 : buffers_suffice t2).
  { unfold buffers_suffice, posNeeded, uvNeeded, sizeof_Vec2f,
      sizeof_DrawIndirectCommand. rewrite Hbp, Hbu. repeat split; lia. }
  rewrite (updateDevice_sufficient t2 Hp2 Hu2 Hs2).
  cbn [fst snd with_bufs posBuf_ uvBuf_ context upload140 buf_size].
  rewrite Hbp, Hbu, Hal. done.
Qed.

Lemma shorter_text_keeps_buffers_witness :
  buf_size
    (posBuf_
       (updateDevice
          (update id
             (with_utf32 (updateDevice Sample.textLong).1 [65]))).1)
  = 416.
Proof.
  destruct (shorter_text_keeps_buffers id Sample.textLong [65]
              eq_refl eq_refl
              ltac:(vm_compute; intros Hc; discriminate Hc)
              ltac:(vm_compute; intros Hc; discriminate Hc)
              eq_refl)
    as (_ & Hb & _).
  rewrite Hb. reflexivity.
Defined.

(** X13.  A text constructed from a font that covers it is ready to draw:
    the caches are in step with the text, both buffers are allocated at
    [max(2 * required, 32)] bytes and hold what a sync requires, and the
    constructor made exactly four calls: it registered with the font's
    atlas, asked for a device update and allocated the two buffers with the
    usage and memory bits of its residency. *)
Theorem Text_new_ready {F} `{Scalar F} (bake : Text F -> Text F)
    (ctx : Context) (txt : list Z) (f : Font F) (xpos : Vec2f F)
    (deviceLocal0 disable0 : bool) :
  ensureRange f txt = false ->
  fits_unsigned (6 * vsize txt) ->
  let t := Text_new bake ctx txt f xpos deviceLocal0 disable0 in
  let bits := if deviceLocal0 then deviceMemoryTypes (device ctx)
              else hostMemoryTypes (device ctx) in
  let posBytes := Z.max (2 * (16 + 48 * vsize txt)) 32 in
  let uvBytes := Z.max (2 * (48 * vsize txt)) 32 in
  caches_in_step t
  /\ buffers_suffice t
  /\ buf_size (posBuf_ t) = posBytes
  /\ buf_size (uvBuf_ t) = uvBytes
  /\ oldAtlas_ t = atlas f
  /\ calls (context t)
     = calls ctx
       ++ [AtlasAdded (atlas f); RegisterUpdateDevice;
           Allocate posBytes (usageFor deviceLocal0) 4 bits;
           Allocate uvBytes (usageFor deviceLocal0) 4 bits].
Proof.
  intros Hr Hfit t bits posBytes uvBytes. unfold Text_new in t.
  set (t0 := {| context := call (AtlasAdded (atlas f)) ctx;
                state_ := {| utf32 := txt; font := f; position := xpos |};
                deviceLocal_ := deviceLocal0; disable_ := disable0;
                posCache_ := []; uvCache_ := [];
                posBuf_ := SubBuffer_empty; uvBuf_ := SubBuffer_empty;
                oldAtlas_ := atlas f |}) in t.
  assert (Hr0 : ensureRange (font (state_ t0)) (utf32 (state_ t0)) = false)
    by exact Hr.
  destruct (update_sizes bake t0 Hr0) as [Hsp Hsu].
  destruct (update_buffers bake t0 Hr0) as [Hbp Hbu].
  destruct (update_flags bake t0 Hr0) as (Hdl & _ & Hdev).
  destruct (update_calls bake t0 Hr0) as [Hc Ho].
  pose proof (update_state bake t0 Hr0) as Hst.
  cbn [t0 state_ utf32 font posBuf_ uvBuf_ oldAtlas_ context deviceLocal_
       call calls device] in Hsp, Hsu, Hbp, Hbu, Hdl, Hdev, Hc, Ho.
  rewrite Nat.eqb_refl in Hc. cbn [app] in Hc.
  set (t1 := update bake t0) in *.
  unfold fits_unsigned in Hfit.
  pose proof (vsize_nonneg txt) as Hn.
  assert (Hpn : posNeeded t1 = 16 + 48 * vsize txt).
  { unfold posNeeded, sizeof_Vec2f, sizeof_DrawIndirectCommand.
    rewrite Hsp. lia. }
  assert (Hun : uvNeeded t1 = 48 * vsize txt).
  { unfold uvNeeded, sizeof_Vec2f. rewrite Hsu. lia. }
  assert (Hp : fits_DeviceSize (2 * posNeeded t1)).
  { unfold fits_DeviceSize. rewrite Hpn. lia. }
  assert (Hu : fits_DeviceSize (2 * uvNeeded t1)).
  { unfold fits_DeviceSize. rewrite Hun. lia. }
  destruct (updateDevice_buffers t1 Hp Hu) as (Hcalls & Hzp & Hzu & _).
  pose proof (updateDevice_makes_sufficient t1 Hp Hu) as Hsuf.
  fold t in Hcalls, Hzp, Hzu, Hsuf.
  rewrite Hbp, Hbu in Hcalls. rewrite Hbp in Hzp. rewrite Hbu in Hzu.
  cbn [SubBuffer_empty buf_size] in Hcalls, Hzp, Hzu.
  rewrite !decide_True in Hcalls by (left; reflexivity).
  rewrite decide_True in Hzp by (left; reflexivity).
  rewrite decide_True in Hzu by (left; reflexivity).
  rewrite Hpn in Hcalls, Hzp. rewrite Hun in Hcalls, Hzu.
  split; [|split; [exact Hsuf|]].
  { unfold caches_in_step. subst t.
    change (state_ (updateDevice t1).1) with (state_ t1).
    change (posCache_ (updateDevice t1).1) with (posCache_ t1).
    change (uvCache_ (updateDevice t1).1) with (uvCache_ t1).
    rewrite Hst. cbn [t0 state_ utf32]. by split. }
  split; [exact Hzp|]. split; [exact Hzu|]. split; [exact Ho|].
  rewrite Hcalls, Hc. unfold memBitsFor. rewrite Hdl, Hdev.
  rewrite <- !app_assoc. reflexivity.
Qed.

Lemma Text_new_ready_witness :
  buf_size (posBuf_ Sample.textLong) = 416
  /\ buf_size (uvBuf_ Sample.textLong) = 384
  /\ caches_in_step Sample.textLong.
Proof.
  destruct (Text_new_ready id Sample.ctx0 [65; 65; 65; 65]
              Sample.fontCovered Sample.origin true false
              eq_refl eq_refl) as (Hs & _ & Hp & Hu & _).
  split; [exact Hp|]. split; [exact Hu | exact Hs].
Defined.

(** X14.  A text without characters: constructed from a font that has
    nothing to extend, it holds two buffers of exactly 32 bytes, a draw
    command with [vertexCount = 0] at the head of the position buffer and the
    same command as the only content of the UV buffer; [charAt] returns 0
    for every query and [ithBounds] throws for every index. *)
Theorem Text_new_without_characters {F} `{Scalar F}
    (bake : Text F -> Text F) (ctx : Context) (f : Font F)
    (xpos : Vec2f F) (deviceLocal0 disable0 : bool) :
  ensureRange f [] = false ->
  let t := Text_new bake ctx [] f xpos deviceLocal0 disable0 in
  buf_size (posBuf_ t) = 32
  /\ buf_size (uvBuf_ t) = 32
  /\ (exists cmd,
        buf_data (posBuf_ t) = [RawCmd cmd; RawSpan []]
        /\ buf_data (uvBuf_ t) = [RawCmd cmd]
        /\ vertexCount cmd = 0 /\ instanceCount cmd = 1)
  /\ (forall (x : F) (fuel : nat), charAt (S fuel) t x = Ret 0)
  /\ (forall n : Z, ithBounds t n = ThrowOutOfRange).
Proof.
  intros Hr t.
  assert (Hcaches : posCache_ t = [] /\ uvCache_ t = []).
  { subst t. unfold Text_new.
    change (posCache_ (updateDevice ?u).1) with (posCache_ u).
    change (uvCache_ (updateDevice ?u).1) with (uvCache_ u).
    match goal with
    | |- posCache_ (update bake ?t0) = _ /\ _ =>
        destruct (update_caches bake t0 Hr) as [-> ->]
    end.
    by split. }
  destruct Hcaches as [Hp Hu].
  assert (Ht : t = Text_new bake ctx [] f xpos deviceLocal0 disable0)
    by reflexivity.
  unfold Text_new in Ht.
  match type of Ht with
  | _ = (updateDevice (update bake ?t0)).1 =>
      destruct (update_buffers bake t0 Hr) as [Hbp Hbu];
      destruct (update_caches bake t0 Hr) as [Hcp Hcu];
      set (t1 := update bake t0) in *
  end.
  cbn [posBuf_ uvBuf_ state_ utf32 layoutPos layoutUV] in Hbp, Hbu, Hcp, Hcu.
  assert (Hsz : buf_size (posBuf_ t) = 32 /\ buf_size (uvBuf_ t) = 32
                /\ buf_data (posBuf_ t)
                   = [RawCmd (drawCommand t1); RawSpan []]
                /\ buf_data (uvBuf_ t) = [RawCmd (drawCommand t1)]
                /\ vertexCount (drawCommand t1) = 0).
  { rewrite Ht. unfold updateDevice, checkResize, drawCommand.
    rewrite Hbp, Hbu, Hcp, Hcu.
    cbn [fst snd posBuf_ uvBuf_ upload140 buf_size buf_data SubBuffer_empty
         SubBuffer_new].
    rewrite bool_decide_eq_true_2 by reflexivity.
    cbn [upload140 buf_size buf_data].
    repeat split; try reflexivity.
    by destruct (disable_ t1). }
  destruct Hsz as (Hs1 & Hs2 & Hd1 & Hd2 & Hv).
  split; [exact Hs1|]. split; [exact Hs2|]. split; [|split].
  - exists (drawCommand t1). by repeat split.
  - intros x fuel. unfold charAt. rewrite Hp. reflexivity.
  - intros n. unfold ithBounds. rewrite Hp.
    assert (Hw : 0 <= wrap32 (n * 6))
      by (unfold wrap32; apply Z.mod_pos_bound; lia).
    change (vsize []) with 0 at 1.
    destruct (Z.leb_spec 0 (wrap32 (n * 6))) as [_|Hc]; [reflexivity | lia].
Qed.

Lemma Text_new_without_characters_witness :
  buf_size (posBuf_ Example.textNone) = 32
  /\ charAt 1 Example.textNone (Sample.f32 7) = Ret 0
  /\ ithBounds Example.textNone 0 = ThrowOutOfRange.
Proof.
  destruct (Text_new_without_characters id Sample.ctx0 Sample.fontCovered
              Sample.origin false false eq_refl)
    as (Hs & _ & _ & Hc & Hb).
  split; [exact Hs|]. split; [exact (Hc (Sample.f32 7) 0%nat) | exact (Hb 0)].
Defined.

Section ResidencyFacts.
Context {F : Type}.

Lemma deviceLocal_same (t : Text F) (set : bool) :
  deviceLocal_ t = set -> deviceLocal t set = t.
Proof.
  intros <-. unfold deviceLocal. by rewrite Bool.eqb_reflx.
Qed.

Lemma deviceLocal_frame (t : Text F) (set : bool) :
  deviceLocal_ (deviceLocal t set) = set
  /\ state_ (deviceLocal t set) = state_ t
  /\ posCache_ (deviceLocal t set) = posCache_ t
  /\ uvCache_ (deviceLocal t set) = uvCache_ t
  /\ disable_ (deviceLocal t set) = disable_ t
  /\ oldAtlas_ (deviceLocal t set) = oldAtlas_ t.
Proof.
  unfold deviceLocal.
  destruct (Bool.eqb (deviceLocal_ t) set) eqn:Hflag; cbn [negb].
  { apply Bool.eqb_prop in Hflag. by rewrite Hflag. }
  cbn [with_deviceLocal posBuf_ uvBuf_ deviceLocal_ context].
  destruct (buf_size (posBuf_ t) =? 0); cbn [negb]; [done|].
  destruct (Z.land _ (buf_memType (posBuf_ t)) =? 0);
    destruct (Z.land _ (buf_memType (uvBuf_ t)) =? 0);
    cbn [orb]; done.
Qed.

End ResidencyFacts.

(** X15.  [deviceLocal(set)] always leaves the flag at [set], never
    touches the text, the font, the position, the caches or the visibility,
    and calling it a second time with the same value changes nothing. *)
Theorem deviceLocal_settles {F} (t : Text F) (set : bool) :
  deviceLocal_ (deviceLocal t set) = set
  /\ state_ (deviceLocal t set) = state_ t
  /\ posCache_ (deviceLocal t set) = posCache_ t
  /\ uvCache_ (deviceLocal t set) = uvCache_ t
  /\ disable_ (deviceLocal t set) = disable_ t
  /\ deviceLocal (deviceLocal t set) set = deviceLocal t set.
Proof.
  destruct (deviceLocal_frame t set) as (Hf & Hs & Hp & Hu & Hd & _).
  repeat (split; [assumption|]).
  by apply deviceLocal_same.
Qed.

(** X16.  When [deviceLocal(set)] changes the residency of a text whose
    position buffer is allocated, each buffer ends up either in a memory
    type that passes the function's own test against the memory types of the
    new residency, or in the memory type the allocator picks for them. *)
Theorem deviceLocal_moves_buffers {F} (t : Text F) (set : bool) :
  deviceLocal_ t <> set ->
  buf_size (posBuf_ t) <> 0 ->
  let needed := if set then deviceMemoryTypes (device (context t))
                else hostMemoryTypes (device (context t)) in
  let t' := deviceLocal t set in
  (Z.land needed (buf_memType (posBuf_ t')) <> 0
   \/ buf_memType (posBuf_ t') = memoryTypeFor (device (context t)) needed)
  /\ (Z.land needed (buf_memType (uvBuf_ t')) <> 0
      \/ buf_memType (uvBuf_ t')
         = memoryTypeFor (device (context t)) needed).
Proof.
  intros Hflag Hsize needed t'. subst t'. unfold deviceLocal.
  rewrite (proj2 (Bool.eqb_false_iff _ _) Hflag). cbn [negb].
  cbn [with_deviceLocal posBuf_ uvBuf_ deviceLocal_ context].
  rewrite (proj2 (Z.eqb_neq _ _) Hsize). cbn [negb]. fold needed.
  destruct (Z.eqb_spec (Z.land needed (buf_memType (posBuf_ t))) 0)
    as [Hdp|Hdp];
    destruct (Z.eqb_spec (Z.land needed (buf_memType (uvBuf_ t))) 0)
      as [Hdu|Hdu];
    cbn [orb with_bufs with_context posBuf_ uvBuf_];
    [| | |by split; left].
  all: unfold updateDevice, checkResize;
    cbn [fst snd posBuf_ uvBuf_ deviceLocal_ context SubBuffer_empty
         buf_size SubBuffer_new call device];
    repeat match goal with
    | |- context [if ?b then _ else _] => destruct b eqn:?
    end;
    cbn [fst snd upload140 buf_memType posBuf_ uvBuf_ orb device call
         SubBuffer_empty buf_size] in *;
    try discriminate;
    subst needed; destruct set; split; solve [by right | by left].
Qed.

Lemma deviceLocal_moves_buffers_witness :
  buf_memType (posBuf_ (deviceLocal Sample.textCut false)) = 1
  /\ buf_memType (uvBuf_ (deviceLocal Sample.textCut false)) = 1.
Proof.
  assert (Hf : deviceLocal_ Sample.textCut <> false)
    by (intros Hc; discriminate Hc).
  assert (Hs : buf_size (posBuf_ Sample.textCut) <> 0)
    by (intros Hc; discriminate Hc).
  destruct (deviceLocal_moves_buffers Sample.textCut false Hf Hs)
    as [[Hp|Hp] [Hu|Hu]].
  - exfalso. apply Hp. reflexivity.
  - exfalso. apply Hp. reflexivity.
  - exfalso. apply Hu. reflexivity.
  - split; [rewrite Hp | rewrite Hu]; reflexivity.
Defined.
